(** * ConfidentialStakePoint: the confidential stake ledger

    A shallow embedding of the contract [ConfidentialStakePoint]
    (stake, requestUnstake, finalizeUnstake) and the properties of its
    pending-withdrawal registry, its scaling arithmetic and its fund
    release path. *)

From Stdlib Require Import ZArith List Lia.
From stdpp Require Import base option list gmap strings.

Open Scope Z_scope.

(** ** Solidity value types *)

(** [address] is a 160-bit word, [euint64] (and [externalEuint64]) an opaque
    bytes32 handle, [uint64] and [uint256] unsigned words.  All are carried
    by [Z]; range checks are written out where the contract performs them. *)
Abbreviation address := Z.
Abbreviation handle := Z.
Definition bytes := list Byte.byte.

Definition uint64_max : Z := 2 ^ 64 - 1.
Definition uint256_max : Z := 2 ^ 256 - 1.

(** [uint256 public constant STAKE_SCALE = 1e12] *)
Definition STAKE_SCALE : Z := 1000000000000.

(** ** Events, errors and the effects of one execution *)

Inductive Event :=
| Staked (staker : address) (weiAmount : Z) (stakeUnits : Z)
| UnstakeRequested (staker : address) (amount : handle)
| UnstakeFinalized (staker : address) (stakeUnits : Z) (weiAmount : Z).

Inductive Error :=
| InvalidStakeAmount
| InvalidUnstakeRequest (amount : handle)
| TransferFailed
| ERC7984UnauthorizedUseOfEncryptedAmount (amount : handle) (user : address)
| SafeCastOverflowedUintDowncast (bits : Z) (value : Z)
| Panic (code : Z)
| EngineRevert.

(** The effects an execution performs, recorded in program order: writes to
    [_unstakeRequests], the signature check, the low-level value call and
    the emitted events. *)
Inductive Effect :=
| SStore (key : handle) (value : address)
| SDelete (key : handle)
| CheckSignatures (handles : list handle) (cleartexts : list Z) (proof : bytes)
| ValueCall (to : address) (value : Z)
| Emit (ev : Event).

(** ** The encrypted-value engine *)

(** Modelled from the spec: the Encrypted-Value Engine and the proof
    verifier, that is the inherited ERC7984 token ([_mint], [_burn],
    [confidentialBalanceOf]) and the FHE library, whose code is not among the
    sources.  The ledger only calls them; they are an injected collaborator.
    Each operation acts on the engine's own state [enc]; an operation that
    can revert returns [None].  [decrypt] is the plaintext behind a handle;
    the ledger never calls it, it only serves to state properties. *)
Record Engine : Type := {
  enc : Type;
  eng_asEuint64 : Z -> enc -> handle * enc;
  eng_fromExternal : handle -> bytes -> address -> enc -> option (handle * enc);
  eng_isAllowed : handle -> address -> enc -> bool;
  eng_makePubliclyDecryptable : handle -> enc -> enc;
  eng_checkSignatures : list handle -> list Z -> bytes -> enc -> bool;
  eng_mint : address -> handle -> enc -> option (handle * enc);
  eng_burn : address -> handle -> enc -> option (handle * enc);
  confidentialBalanceOf : address -> enc -> handle;
  decrypt : handle -> enc -> Z
}.

(** The plaintext balance of an account. *)
Definition decryptedBalance (eng : Engine) (a : address) (e : enc eng) : Z :=
  decrypt eng (confidentialBalanceOf eng a e) e.

(** Modelled from the spec: what the spec says of the engine's arithmetic.
    Minting and burning return the handle of the amount actually moved:
    minting adds its plaintext to the receiver's balance, burning subtracts
    it from the spender's.  A mint moves the amount asked for or nothing
    (the engine fails silently, as the inherited ERC7984 token does when the
    [uint64] total supply would overflow).  A decryption proof is accepted
    only for the handle's plaintext, and the remaining operations leave
    balances and existing plaintexts alone. *)
Record EngineLaws (eng : Engine) : Prop := {
  asEuint64_decrypt : forall u e h e',
    eng_asEuint64 eng u e = (h, e') ->
    decrypt eng h e' = u /\ forall a, decryptedBalance eng a e' = decryptedBalance eng a e;
  mint_balance : forall to h e t e',
    eng_mint eng to h e = Some (t, e') ->
    decryptedBalance eng to e' = decryptedBalance eng to e + decrypt eng t e';
  mint_all_or_nothing : forall to h e t e',
    eng_mint eng to h e = Some (t, e') ->
    decrypt eng t e' = decrypt eng h e \/ decrypt eng t e' = 0;
  burn_balance : forall from h e t e',
    eng_burn eng from h e = Some (t, e') ->
    decryptedBalance eng from e' = decryptedBalance eng from e - decrypt eng t e';
  fromExternal_balance : forall x p c e h e',
    eng_fromExternal eng x p c e = Some (h, e') ->
    forall a, decryptedBalance eng a e' = decryptedBalance eng a e;
  makePubliclyDecryptable_balance : forall h e a,
    decryptedBalance eng a (eng_makePubliclyDecryptable eng h e) = decryptedBalance eng a e;
  makePubliclyDecryptable_decrypt : forall h e h',
    decrypt eng h' (eng_makePubliclyDecryptable eng h e) = decrypt eng h' e;
  checkSignatures_sound : forall h c p e,
    eng_checkSignatures eng [h] [c] p e = true -> decrypt eng h e = c
}.

(** ** Contract state and the execution monad *)

Section Ledger.

Context (eng : Engine).

(** Storage of the contract ([_unstakeRequests]), the engine's state, the
    contract's own ETH balance ([address(this).balance]) and the effects
    performed so far.  A Solidity mapping reads [address(0)] at a key that
    holds no entry. *)
Record State : Type := mkState {
  unstakeRequests : gmap Z Z;
  fhe : enc eng;
  balance : Z;
  trace : list Effect
}.

(** An execution either returns, reverts, or is suspended at a low-level
    call that hands control (and [value] wei) to [to]; the continuation
    receives [None] when the call failed, and the state after the call
    when it succeeded.  A reverted execution keeps the state it had reached,
    for inspection; the host discards it (see [commit]). *)
Inductive Exec (A : Type) : Type :=
| Ok (a : A) (s : State)
| Revert (e : Error) (s : State)
| ExternalCall (to : address) (value : Z) (s : State) (k : option State -> Exec A).

Arguments Ok {A} a s.
Arguments Revert {A} e s.
Arguments ExternalCall {A} to value s k.

Definition M (A : Type) : Type := State -> Exec A.

Definition ret {A} (a : A) : M A := fun s => Ok a s.

Fixpoint bindE {A B} (x : Exec A) (f : A -> M B) : Exec B :=
  match x with
  | Ok a s => f a s
  | Revert e s => Revert e s
  | ExternalCall to v s k => ExternalCall to v s (fun r => bindE (k r) f)
  end.

Definition bind {A B} (m : M A) (f : A -> M B) : M B := fun s => bindE (m s) f.

Definition revert {A} (e : Error) : M A := fun s => Revert e s.

Definition when (b : bool) (m : M unit) : M unit := if b then m else ret tt.

Definition record (ef : Effect) (s : State) : State :=
  mkState (unstakeRequests s) (fhe s) (balance s) (trace s ++ [ef]).

Definition set_unstakeRequests (m : gmap Z Z) (s : State) : State :=
  mkState m (fhe s) (balance s) (trace s).

Definition set_fhe (e : enc eng) (s : State) : State :=
  mkState (unstakeRequests s) e (balance s) (trace s).

Definition set_balance (b : Z) (s : State) : State :=
  mkState (unstakeRequests s) (fhe s) b (trace s).

(** *** Storage, events, arithmetic *)

(** [_unstakeRequests[key]] read: the zero address where no entry is held. *)
Definition sload (key : handle) : M address :=
  fun s => Ok (default 0 (unstakeRequests s !! key)) s.

(** [_unstakeRequests[key] = value] *)
Definition sstore (key : handle) (value : address) : M unit :=
  fun s => Ok tt (record (SStore key value)
                    (set_unstakeRequests (<[key := value]> (unstakeRequests s)) s)).

(** [delete _unstakeRequests[key]] *)
Definition sdelete (key : handle) : M unit :=
  fun s => Ok tt (record (SDelete key)
                    (set_unstakeRequests (delete key (unstakeRequests s)) s)).

Definition emit (ev : Event) : M unit :=
  fun s => Ok tt (record (Emit ev) s).

(** A payable function is entered with [msg.value] already credited. *)
Definition receive_value (v : Z) : M unit :=
  fun s => Ok tt (set_balance (balance s + v) s).

(** Checked [uint256] multiplication of Solidity 0.8: Panic(0x11) on
    overflow. *)
Definition checked_mul (a b : Z) : M Z :=
  if a * b <=? uint256_max then ret (a * b) else revert (Panic 17).

(** [SafeCast.toUint64] *)
Definition toUint64 (value : Z) : M Z :=
  if value >? uint64_max then revert (SafeCastOverflowedUintDowncast 64 value)
  else ret value.

(** [to.call{value: v}("")]: control leaves the contract; the result is the
    success flag. *)
Definition call (to : address) (v : Z) : M bool :=
  fun s => let s1 := record (ValueCall to v) s in
           ExternalCall to v s1
             (fun r => match r with
                       | None => Ok false s1
                       | Some s2 => Ok true s2
                       end).

(** *** Calls into the engine *)

Definition FHE_asEuint64 (value : Z) : M handle :=
  fun s => let '(h, e) := eng_asEuint64 eng value (fhe s) in Ok h (set_fhe e s).

Definition lift_engine (r : enc eng -> option (handle * enc eng)) : M handle :=
  fun s => match r (fhe s) with
           | Some (h, e) => Ok h (set_fhe e s)
           | None => Revert EngineRevert s
           end.

Definition FHE_fromExternal (x : handle) (inputProof : bytes) (sender : address) : M handle :=
  lift_engine (eng_fromExternal eng x inputProof sender).

Definition _mint (to : address) (amount : handle) : M handle :=
  lift_engine (eng_mint eng to amount).

Definition _burn (from : address) (amount : handle) : M handle :=
  lift_engine (eng_burn eng from amount).

Definition FHE_isAllowed (h : handle) (account : address) : M bool :=
  fun s => Ok (eng_isAllowed eng h account (fhe s)) s.

Definition FHE_makePubliclyDecryptable (h : handle) : M unit :=
  fun s => Ok tt (set_fhe (eng_makePubliclyDecryptable eng h (fhe s)) s).

(** [FHE.checkSignatures] reverts unless the proof is valid for the handles
    and cleartexts. *)
Definition FHE_checkSignatures (handles : list handle) (cleartexts : list Z)
    (decryptionProof : bytes) : M unit :=
  fun s => let s1 := record (CheckSignatures handles cleartexts decryptionProof) s in
           if eng_checkSignatures eng handles cleartexts decryptionProof (fhe s1)
           then Ok tt s1 else Revert EngineRevert s1.

End Ledger.

Arguments Ok {eng A} a s.
Arguments Revert {eng A} e s.
Arguments ExternalCall {eng A} to value s k.
Arguments ret {eng A} a.
Arguments bind {eng A B} m f.
Arguments bindE {eng A B} x f.
Arguments revert {eng A} e.
Arguments when {eng} b m.
Arguments record {eng} ef s.
Arguments sload {eng} key.
Arguments sstore {eng} key value.
Arguments sdelete {eng} key.
Arguments emit {eng} ev.
Arguments receive_value {eng} v.
Arguments checked_mul {eng} a b.
Arguments toUint64 {eng} value.
Arguments call {eng} to v.
Arguments unstakeRequests {eng} s.
Arguments fhe {eng} s.
Arguments balance {eng} s.
Arguments trace {eng} s.
Arguments set_balance {eng} b s.

Notation "'do' x <- c ; k" := (bind c (fun x => k))
  (at level 10, x name, c at level 100, k at level 200).
Notation "'perform' c ; k" := (bind c (fun _ => k))
  (at level 10, c at level 100, k at level 200).

(** ** The contract *)

Section Contract.

Context (eng : Engine).

Definition stake (msg_sender : address) (msg_value : Z) : M eng handle :=
  perform receive_value msg_value;
  perform when ((msg_value =? 0) || negb (msg_value mod STAKE_SCALE =? 0))
        (revert InvalidStakeAmount);
  let scaled := msg_value / STAKE_SCALE in
  perform when (scaled >? uint64_max) (revert InvalidStakeAmount);
  do stakeUnits <- toUint64 scaled;
  do encrypted <- FHE_asEuint64 eng stakeUnits;
  do mintedAmount <- _mint eng msg_sender encrypted;
  perform emit (Staked msg_sender msg_value stakeUnits);
  ret mintedAmount.

Definition _requestUnstake (from : address) (amount : handle) : M eng handle :=
  do burntAmount <- _burn eng from amount;
  perform FHE_makePubliclyDecryptable eng burntAmount;
  do registered <- sload burntAmount;
  perform when (negb (registered =? 0)) (revert (InvalidUnstakeRequest burntAmount));
  perform sstore burntAmount from;
  perform emit (UnstakeRequested from burntAmount);
  ret burntAmount.

(** [requestUnstake(externalEuint64, bytes)] *)
Definition requestUnstake_external (msg_sender : address)
    (encryptedAmount : handle) (inputProof : bytes) : M eng handle :=
  do amount <- FHE_fromExternal eng encryptedAmount inputProof msg_sender;
  _requestUnstake msg_sender amount.

(** [requestUnstake(euint64)] *)
Definition requestUnstake (msg_sender : address) (amount : handle) : M eng handle :=
  do allowed <- FHE_isAllowed eng amount msg_sender;
  perform when (negb allowed)
        (revert (ERC7984UnauthorizedUseOfEncryptedAmount amount msg_sender));
  _requestUnstake msg_sender amount.

Definition finalizeUnstake (msg_sender : address) (burntAmount : handle)
    (burntAmountCleartext : Z) (decryptionProof : bytes) : M eng unit :=
  do to <- sload burntAmount;
  perform when (to =? 0) (revert (InvalidUnstakeRequest burntAmount));
  perform sdelete burntAmount;
  let handles := [burntAmount] in
  let cleartexts := [burntAmountCleartext] in
  perform FHE_checkSignatures eng handles cleartexts decryptionProof;
  do weiAmount <- checked_mul burntAmountCleartext STAKE_SCALE;
  do success <- call to weiAmount;
  perform when (negb success) (revert TransferFailed);
  emit (UnstakeFinalized to burntAmountCleartext weiAmount).

End Contract.

Arguments stake {eng} msg_sender msg_value.
Arguments _requestUnstake {eng} from amount.
Arguments requestUnstake_external {eng} msg_sender encryptedAmount inputProof.
Arguments requestUnstake {eng} msg_sender amount.
Arguments finalizeUnstake {eng} msg_sender burntAmount burntAmountCleartext decryptionProof.

(** ** The host: value calls and transactions *)

(** The world a transaction runs in: the contract's own address and, for
    each recipient and amount, whether the recipient's code accepts a plain
    value call.  Under [complete] recipients do not call back into the
    ledger; [complete_with], further down, lets them. *)
Record World : Type := {
  this : address;
  accepts : address -> Z -> bool
}.

Section Host.

Context {eng : Engine} (W : World).

(** A value call fails when the contract cannot pay, when the recipient
    rejects it, or when the recipient is the contract itself (which
    declares neither [receive] nor [fallback]); otherwise the value leaves
    the contract. *)
Definition value_call (to : address) (v : Z) (s : State eng) : option (State eng) :=
  if (balance s <? v) || (to =? this W) || negb (accepts W to v) then None
  else Some (set_balance (balance s - v) s).

(** The outcome of a whole call, every value call answered by the world. *)
Inductive Outcome (A : Type) : Type :=
| Success (a : A) (s : State eng)
| Failure (e : Error) (s : State eng).

Arguments Success {A} a s.
Arguments Failure {A} e s.

Fixpoint complete {A} (x : Exec eng A) : Outcome A :=
  match x with
  | Ok a s => Success a s
  | Revert e s => Failure e s
  | ExternalCall to v s k => complete (k (value_call to v s))
  end.

(** All-or-nothing: the state a transaction leaves behind. *)
Definition commit {A} (s : State eng) (o : Outcome A) : State eng :=
  match o with
  | Success _ s' => s'
  | Failure _ _ => s
  end.

End Host.

Arguments Success {eng A} a s.
Arguments Failure {eng A} e s.

(** The public entry points, as messages. *)
Inductive Msg :=
| MStake (msg_value : Z)
| MRequestUnstakeExternal (encryptedAmount : handle) (inputProof : bytes)
| MRequestUnstake (amount : handle)
| MFinalizeUnstake (burntAmount : handle) (burntAmountCleartext : Z) (decryptionProof : bytes).

Section Transactions.

Context {eng : Engine} (W : World).

Definition dispatch (msg_sender : address) (m : Msg) (s : State eng) : Outcome unit :=
  match m with
  | MStake v => complete W (bind (stake msg_sender v) (fun _ => ret tt) s)
  | MRequestUnstakeExternal x p =>
      complete W (bind (requestUnstake_external msg_sender x p) (fun _ => ret tt) s)
  | MRequestUnstake a => complete W (bind (requestUnstake msg_sender a) (fun _ => ret tt) s)
  | MFinalizeUnstake h c p => complete W (finalizeUnstake msg_sender h c p s)
  end.

Definition transact (msg_sender : address) (m : Msg) (s : State eng) : State eng :=
  commit s (dispatch msg_sender m s).

(** The states the ledger can be in: from deployment, through transactions
    sent by accounts.  No account has the zero address. *)
Inductive reachable (init : State eng) : State eng -> Prop :=
| reach_deploy : reachable init init
| reach_transact s msg_sender m :
    reachable init s -> msg_sender <> 0 -> reachable init (transact msg_sender m s).

End Transactions.

(** The state at deployment: no pending withdrawal. *)
Definition deployed {eng : Engine} (e : enc eng) (b : Z) : State eng :=
  mkState eng ∅ e b [].

(** ** Recipients that call back *)

(** The low-level call of [finalizeUnstake] hands control to the recipient,
    and the contract has no reentrancy guard: while it holds control, the
    recipient may call the contract's functions.  [callbacks] lists, for a
    recipient and the wei it receives, the messages it sends to the ledger
    before it returns, itself as [msg.sender]; [host] answers the value
    calls those messages make in turn. *)
Record Recipients : Type := {
  host : World;
  callbacks : address -> Z -> list Msg
}.

Section Reentrancy.

Context {eng : Engine}.

(** The recipient's calls, one after the other; one that fails makes the
    recipient revert. *)
Fixpoint call_back (W : World) (sender : address) (msgs : list Msg) (s : State eng)
  : option (State eng) :=
  match msgs with
  | [] => Some s
  | m :: msgs' =>
      match dispatch W sender m s with
      | Success _ s1 => call_back W sender msgs' s1
      | Failure _ _ => None
      end
  end.

(** A value call whose recipient calls back: the value leaves the contract,
    then the recipient runs. *)
Definition value_call_back (R : Recipients) (to : address) (v : Z) (s : State eng)
  : option (State eng) :=
  match value_call (host R) to v s with
  | Some s1 => call_back (host R) to (callbacks R to v) s1
  | None => None
  end.

(** The outcome of a whole call, every value call answered by a recipient
    that may call back.  [complete] is the case of recipients that do not. *)
Fixpoint complete_with (R : Recipients) {A} (x : Exec eng A) : Outcome A :=
  match x with
  | Ok a s => Success a s
  | Revert e s => Failure e s
  | ExternalCall to v s k => complete_with R (k (value_call_back R to v s))
  end.

End Reentrancy.

(** ** A transparent engine *)

(** Modelled from the spec: the deterministic fake the design notes ask for
    in place of the engine.  A handle is its own plaintext, balances are
    kept in the clear, a burn of more than the balance burns nothing, the
    zero address neither receives nor spends, and a proof is any non-empty
    blob. *)
Definition clear_engine : Engine := {|
  enc := gmap Z Z;
  eng_asEuint64 := fun u e => (u, e);
  eng_fromExternal := fun x p _ e => match p with [] => None | _ => Some (x, e) end;
  eng_isAllowed := fun _ _ _ => true;
  eng_makePubliclyDecryptable := fun _ e => e;
  eng_checkSignatures := fun hs cs p _ =>
    match p with [] => false | _ => bool_decide (hs = cs) end;
  eng_mint := fun to h e =>
    if to =? 0 then None else Some (h, <[to := default 0 (e !! to) + h]> e);
  eng_burn := fun from h e =>
    if from =? 0 then None
    else let b := default 0 (e !! from) in
         let t := if h <=? b then h else 0 in
         Some (t, <[from := b - t]> e);
  confidentialBalanceOf := fun a e => default 0 (e !! a);
  decrypt := fun h _ => h
|}.

(** Modelled from the spec: the transparent engine with the [uint64] cap on
    the total supply that the inherited ERC7984 token has.  The engine's
    state is the balances and the total supply; a mint that would take the
    supply past 2^64 - 1 succeeds and mints nothing. *)
Definition saturating_engine : Engine := {|
  enc := gmap Z Z * Z;
  eng_asEuint64 := fun u e => (u, e);
  eng_fromExternal := fun x p _ e => match p with [] => None | _ => Some (x, e) end;
  eng_isAllowed := fun _ _ _ => true;
  eng_makePubliclyDecryptable := fun _ e => e;
  eng_checkSignatures := fun hs cs p _ =>
    match p with [] => false | _ => bool_decide (hs = cs) end;
  eng_mint := fun to h e =>
    if to =? 0 then None
    else let t := if e.2 + h <=? uint64_max then h else 0 in
         Some (t, (<[to := default 0 (e.1 !! to) + t]> e.1, e.2 + t));
  eng_burn := fun from h e =>
    if from =? 0 then None
    else let b := default 0 (e.1 !! from) in
         let t := if h <=? b then h else 0 in
         Some (t, (<[from := b - t]> e.1, e.2 - t));
  confidentialBalanceOf := fun a e => default 0 (e.1 !! a);
  decrypt := fun h _ => h
|}.

(** A world for examples: the contract lives at address 1000; the account
    at address 666 rejects value calls, every other account accepts. *)
Definition example_world : World :=
  {| this := 1000; accepts := fun to _ => negb (to =? 666) |}.

Definition some_proof : bytes := [Byte.x01].

(** ** Auxiliary definitions: the shapes of executions *)

(** The state an outcome ends in: the final state of a success, the state
    reached by a reverted execution. *)
Definition outcome_state {eng : Engine} {A} (o : Outcome (eng := eng) A) : State eng :=
  match o with
  | Success _ s => s
  | Failure _ s => s
  end.

(** The states [finalizeUnstake] passes through on a handle that reads a
    nonzero recipient: after the deletion, and at the value call. *)
Definition after_delete {eng : Engine} (h : handle) (s : State eng) : State eng :=
  record (SDelete h)
    (mkState eng (delete h (unstakeRequests s)) (fhe s) (balance s) (trace s)).

Definition at_call {eng : Engine} (h : handle) (c : Z) (p : bytes) (to : address)
    (s : State eng) : State eng :=
  record (ValueCall to (c * STAKE_SCALE))
    (record (CheckSignatures [h] [c] p) (after_delete h s)).

(** The effects of a complete, successful [finalizeUnstake], in program
    order. *)
Definition finalize_effects (h : handle) (c : Z) (p : bytes) (to : address) : list Effect :=
  [ SDelete h;
    CheckSignatures [h] [c] p;
    ValueCall to (c * STAKE_SCALE);
    Emit (UnstakeFinalized to c (c * STAKE_SCALE)) ].

(** Every execution of [finalizeUnstake] falls in one of four cases. *)
Inductive finalize_case {eng : Engine} (s : State eng) (h : handle) (c : Z) (p : bytes)
  : Exec eng unit -> Prop :=
| fin_unknown :
    default 0 (unstakeRequests s !! h) = 0 ->
    finalize_case s h c p (Revert (InvalidUnstakeRequest h) s)
| fin_bad_proof :
    default 0 (unstakeRequests s !! h) <> 0 ->
    eng_checkSignatures eng [h] [c] p (fhe s) = false ->
    finalize_case s h c p
      (Revert EngineRevert (record (CheckSignatures [h] [c] p) (after_delete h s)))
| fin_overflow :
    default 0 (unstakeRequests s !! h) <> 0 ->
    eng_checkSignatures eng [h] [c] p (fhe s) = true ->
    (c * STAKE_SCALE <=? uint256_max) = false ->
    finalize_case s h c p
      (Revert (Panic 17) (record (CheckSignatures [h] [c] p) (after_delete h s)))
| fin_call k :
    let to := default 0 (unstakeRequests s !! h) in
    to <> 0 ->
    eng_checkSignatures eng [h] [c] p (fhe s) = true ->
    (c * STAKE_SCALE <=? uint256_max) = true ->
    k None = Revert TransferFailed (at_call h c p to s) ->
    (forall s2, k (Some s2) =
                Ok tt (record (Emit (UnstakeFinalized to c (c * STAKE_SCALE))) s2)) ->
    finalize_case s h c p (ExternalCall to (c * STAKE_SCALE) (at_call h c p to s) k).

(** The three reasons for which [stake] rejects an amount. *)
Definition misaligned (v : Z) : Prop :=
  v = 0 \/ v mod 10 ^ 12 <> 0 \/ v / 10 ^ 12 > 2 ^ 64 - 1.

(** What [stake] does with an amount that passes validation. *)
Definition stake_accepted_result {eng : Engine} (s : State eng) (sender : address)
    (v : Z) : Exec eng handle :=
  let s1 := set_balance (balance s + v) s in
  let units := v / STAKE_SCALE in
  let '(encrypted, e1) := eng_asEuint64 eng units (fhe s1) in
  match eng_mint eng sender encrypted e1 with
  | Some (minted, e2) =>
      Ok minted (record (Emit (Staked sender v units))
                   (mkState eng (unstakeRequests s) e2 (balance s + v) (trace s)))
  | None =>
      Revert EngineRevert (mkState eng (unstakeRequests s) e1 (balance s + v) (trace s))
  end.

(** What [_requestUnstake] does once the engine has burnt [burnt]. *)
Definition register_result {eng : Engine} (s : State eng) (from : address) (burnt : handle)
    (e1 : enc eng) : Exec eng handle :=
  let e2 := eng_makePubliclyDecryptable eng burnt e1 in
  if default 0 (unstakeRequests s !! burnt) =? 0 then
    Ok burnt
      (record (Emit (UnstakeRequested from burnt))
         (record (SStore burnt from)
            (mkState eng (<[burnt := from]> (unstakeRequests s)) e2 (balance s) (trace s))))
  else
    Revert (InvalidUnstakeRequest burnt)
      (mkState eng (unstakeRequests s) e2 (balance s) (trace s)).

(** The two public entry points, seen from their results: the caller, the
    starting state, the burnt-amount handle and the final state of a
    successful request. *)
Definition requested {eng : Engine} (sender : address) (s : State eng) (burnt : handle)
    (s1 : State eng) : Prop :=
  (exists amount, requestUnstake sender amount s = Ok burnt s1) \/
  (exists x proof, requestUnstake_external sender x proof s = Ok burnt s1).

(** Every entry of the registry holds a nonzero recipient. *)
Definition recipients_nonzero {eng : Engine} (s : State eng) : Prop :=
  forall h r, unstakeRequests s !! h = Some r -> r <> 0.

(** The engine refuses to burn from the zero address. *)
Definition burn_rejects_zero (eng : Engine) : Prop :=
  forall amount e, eng_burn eng 0 amount e = None.

(** ** Example states *)

(** A state with one pending withdrawal: handle 5, registered for the
    account at address 7, the contract holding 10^13 wei. *)
Definition pending_example : State clear_engine :=
  mkState clear_engine {[ 5 := 7 ]} {[ 7 := 20 ]} 10000000000000 [].

(** The example state at the moment control is handed to the recipient. *)
Definition suspended_example : State clear_engine :=
  mkState clear_engine ∅ {[ 7 := 20 ]} 10000000000000
    [ SDelete 5; CheckSignatures [5] [5] some_proof; ValueCall 7 5000000000000 ].

(** The same state when handle 5 has been finalized for 5 units. *)
Definition finalized_example : State clear_engine :=
  mkState clear_engine ∅ {[ 7 := 20 ]} 5000000000000
    [ SDelete 5; CheckSignatures [5] [5] some_proof; ValueCall 7 5000000000000;
      Emit (UnstakeFinalized 7 5 5000000000000) ].

(** The example state with the pending withdrawal registered for the account
    at address 666, which rejects value calls in [example_world]. *)
Definition rejecting_example : State clear_engine :=
  mkState clear_engine {[ 5 := 666 ]} {[ 666 := 20 ]} 10000000000000 [].

(** A world in which every account accepts value calls. *)
Definition accepting_world : World :=
  {| this := 1000; accepts := fun _ _ => true |}.

(** The ledger of the examples before any stake: account 7 holds 20 units. *)
Definition fresh_example : State clear_engine :=
  mkState clear_engine ∅ {[ 7 := 20 ]} 0 [].

(** Scenario A and B of the specification on the transparent engine: from an
    empty ledger, account 7 stakes 2 * 10^18 wei, requests the unstake of
    1,000,000 units and finalizes it. *)
Definition scenario_start : State clear_engine :=
  mkState clear_engine ∅ ∅ 0 [].

Definition scenario_staked : State clear_engine :=
  mkState clear_engine ∅ {[ 7 := 2000000 ]} 2000000000000000000
    [ Emit (Staked 7 2000000000000000000 2000000) ].

Definition scenario_requested : State clear_engine :=
  mkState clear_engine {[ 1000000 := 7 ]} {[ 7 := 1000000 ]} 2000000000000000000
    [ Emit (Staked 7 2000000000000000000 2000000);
      SStore 1000000 7; Emit (UnstakeRequested 7 1000000) ].

Definition scenario_finalized : State clear_engine :=
  mkState clear_engine ∅ {[ 7 := 1000000 ]} 1000000000000000000
    [ Emit (Staked 7 2000000000000000000 2000000);
      SStore 1000000 7; Emit (UnstakeRequested 7 1000000);
      SDelete 1000000; CheckSignatures [1000000] [1000000] some_proof;
      ValueCall 7 1000000000000000000;
      Emit (UnstakeFinalized 7 1000000 1000000000000000000) ].

(** Recipients that stake back whatever they receive, in [example_world]. *)
Definition restaking_recipients : Recipients :=
  {| host := example_world; callbacks := fun _ v => [MStake v] |}.


(** [scenario_requested] finalized for a recipient that stakes the
    10^18 wei back while it holds control. *)
Definition restaked_example : State clear_engine :=
  mkState clear_engine ∅ {[ 7 := 2000000 ]} 2000000000000000000
    [ Emit (Staked 7 2000000000000000000 2000000);
      SStore 1000000 7; Emit (UnstakeRequested 7 1000000);
      SDelete 1000000; CheckSignatures [1000000] [1000000] some_proof;
      ValueCall 7 1000000000000000000;
      Emit (Staked 7 1000000000000000000 1000000);
      Emit (UnstakeFinalized 7 1000000 1000000000000000000) ].

(** A ledger on the saturating engine whose total supply is at the cap:
    account 8 holds 2^64 - 1 units. *)
Definition full_supply_example : State saturating_engine :=
  mkState saturating_engine ∅
    ({[ 8 := 18446744073709551615 ]}, 18446744073709551615) 0 [].

(** The same ledger after account 9 has staked 10^12 wei: the wei are kept,
    the event says one unit, and nothing was minted. *)
Definition full_supply_staked : State saturating_engine :=
  mkState saturating_engine ∅
    (<[ 9 := 0 ]> {[ 8 := 18446744073709551615 ]}, 18446744073709551615)
    1000000000000 [ Emit (Staked 9 1000000000000 1) ].

(** ** Accounting over the trace *)

(** The wei staked, released and sent out, as the effects of a trace record
    them: the [weiAmount] of the [Staked] events, the [weiAmount] of the
    [UnstakeFinalized] events, and the value of the value calls. *)
Fixpoint staked_wei (t : list Effect) : Z :=
  match t with
  | [] => 0
  | Emit (Staked _ w _) :: t' => w + staked_wei t'
  | _ :: t' => staked_wei t'
  end.

Fixpoint released_wei (t : list Effect) : Z :=
  match t with
  | [] => 0
  | Emit (UnstakeFinalized _ _ w) :: t' => w + released_wei t'
  | _ :: t' => released_wei t'
  end.

Fixpoint called_wei (t : list Effect) : Z :=
  match t with
  | [] => 0
  | ValueCall _ w :: t' => w + called_wei t'
  | _ :: t' => called_wei t'
  end.

(** The arguments of a message are in the range of their Solidity types:
    [msg.value] is a [uint256], [burntAmountCleartext] a [uint64]. *)
Definition well_typed (m : Msg) : Prop :=
  match m with
  | MStake v => 0 <= v <= uint256_max
  | MFinalizeUnstake _ c _ => 0 <= c <= uint64_max
  | _ => True
  end.

(** The conditions under which the world lets a value call through. *)
Definition payable_now {eng : Engine} (W : World) (to : address) (v : Z)
    (s : State eng) : Prop :=
  v <= balance s /\ to <> this W /\ accepts W to v = true.

(** The engine accepts the mint that [stake] asks for: the encryption of
    [msg.value / STAKE_SCALE] units, minted to the sender. *)
Definition mint_accepts {eng : Engine} (sender : address) (v : Z) (s : State eng) : Prop :=
  is_Some (eng_mint eng sender
             (eng_asEuint64 eng (v / STAKE_SCALE) (fhe s)).1
             (eng_asEuint64 eng (v / STAKE_SCALE) (fhe s)).2).

(** ** The client: checks made before a transaction is sent *)

(** [StakeApp.tsx].  The handlers [handleStake] and [handleRequestUnstake]
    are embedded up to the point where they send the transaction: the checks
    they make on their inputs, and what they hand to the contract.  BigInt
    arithmetic truncates towards zero, and dividing by [0n] throws. *)
Definition FALLBACK_SCALE : Z := 1000000000000.
Definition MAX_UINT64 : Z := Z.shiftl 1 64 - 1.

Inductive StatusTone := neutral | success | error | pending.

Record StatusState : Type := { tone : StatusTone; message : string }.

(** How a handler leaves its checks: it set a status and returned, a BigInt
    operation threw, or it goes on to send a transaction with [a]. *)
Inductive Checked (A : Type) : Type :=
| Halt (status : StatusState)
| RangeError
| Proceed (a : A).

Arguments Halt {A} status.
Arguments RangeError {A}.
Arguments Proceed {A} a.

Definition bigint_rem (a b : Z) : option Z :=
  if b =? 0 then None else Some (Z.rem a b).

Definition bigint_div (a b : Z) : option Z :=
  if b =? 0 then None else Some (Z.quot a b).

(** [parseWei]: [null] on the empty string and when [parseEther] throws.
    [parseEther] belongs to a library; it is a parameter, [None] when it
    throws. *)
Definition parseWei (parseEther : string -> option Z) (value : string) : option Z :=
  if decide (value = ""%string) then None else parseEther value.

(** [stakeScaleData ?? FALLBACK_SCALE] *)
Definition stakeScale (stakeScaleData : option Z) : Z :=
  default FALLBACK_SCALE stakeScaleData.

(** [handleStake], up to [contract.stake({ value: weiValue })]: the result
    is the [value] sent.  [activeAddress] and [connected] say whether the
    contract address, and the wallet and signer, are there. *)
Definition handleStake (parseEther : string -> option Z) (activeAddress connected : bool)
    (stakeAmount : string) (scale : Z) : Checked Z :=
  if negb activeAddress then
    Halt {| tone := error; message := "Contract address is not configured." |}
  else if negb connected then
    Halt {| tone := error; message := "Connect your wallet to stake." |}
  else
    match parseWei parseEther stakeAmount with
    | None => Halt {| tone := error; message := "Enter a valid stake amount." |}
    | Some weiValue =>
        if weiValue =? 0 then
          Halt {| tone := error; message := "Enter a valid stake amount." |}
        else
          match bigint_rem weiValue scale with
          | None => RangeError
          | Some r =>
              if negb (r =? 0) then
                Halt {| tone := error;
                        message := "Amount must align with the stake scale." |}
              else Proceed weiValue
          end
    end.

(** [handleRequestUnstake], up to [buffer.add64(stakeUnits)]: the result is
    the number of units that is encrypted and sent to
    [requestUnstake(bytes32,bytes)]. *)
Definition handleRequestUnstake (parseEther : string -> option Z)
    (activeAddress ready : bool) (unstakeAmount : string) (scale : Z) : Checked Z :=
  if negb activeAddress then
    Halt {| tone := error; message := "Contract address is not configured." |}
  else if negb ready then
    Halt {| tone := error;
            message := "Connect wallet and wait for encryption to load." |}
  else
    match parseWei parseEther unstakeAmount with
    | None => Halt {| tone := error; message := "Enter a valid unstake amount." |}
    | Some weiValue =>
        if weiValue =? 0 then
          Halt {| tone := error; message := "Enter a valid unstake amount." |}
        else
          match bigint_rem weiValue scale with
          | None => RangeError
          | Some r =>
              if negb (r =? 0) then
                Halt {| tone := error;
                        message := "Amount must align with the stake scale." |}
              else
                match bigint_div weiValue scale with
                | None => RangeError
                | Some stakeUnits =>
                    if stakeUnits >? MAX_UINT64 then
                      Halt {| tone := error;
                              message := "Amount exceeds the encrypted range." |}
                    else Proceed stakeUnits
                end
          end
    end.

(** [type PendingUnstake]: the handle of the request, and the clear value and
    proof once the public decryption has returned them. *)
Record PendingUnstake : Type := {
  unstakeHandle : string;
  clearValue : option Z;
  decryptionProof : option string
}.

(** [handleFinalizeUnstake], up to [contract.finalizeUnstake(...)]: the
    result is the handle, clear value and proof sent.  A BigInt is falsy
    when it is [0n], a string when it is empty. *)
Definition handleFinalizeUnstake (pendingUnstake : option PendingUnstake)
    (activeAddress signer : bool) : Checked (string * Z * string) :=
  let no_proof :=
    Halt {| tone := error; message := "No pending unstake proof available." |} in
  match pendingUnstake with
  | None => no_proof
  | Some pu =>
      match clearValue pu, decryptionProof pu with
      | Some c, Some d =>
          if (c =? 0) || bool_decide (d = ""%string) then no_proof
          else if negb activeAddress || negb signer then
            Halt {| tone := error; message := "Connect your wallet to finalize." |}
          else Proceed (unstakeHandle pu, c, d)
      | _, _ => no_proof
      end
  end.

(** A pending withdrawal of zero units: handle 0 registered for account 7. *)
Definition zero_pending_example : State clear_engine :=
  mkState clear_engine {[ 0 := 7 ]} {[ 7 := 20 ]} 10000000000000 [].

(** A [parseEther] for examples: it reads four amounts and throws on
    anything else. *)
Definition example_parseEther (value : string) : option Z :=
  if decide (value = "2"%string) then Some 2000000000000000000
  else if decide (value = "-1"%string) then Some (-1000000000000000000)
  else if decide (value = "0.0000000000001"%string) then Some 100000
  else if decide (value = "20000000000000"%string)
       then Some 20000000000000000000000000000000
  else None.

(** ** Basic facts about executions *)

Section Facts.

Context {eng : Engine}.

(** A handle without an entry cannot be finalized: the call reverts at the
    lookup, before any effect. *)
Lemma finalize_unregistered (s : State eng) sender h c p :
  default 0 (unstakeRequests s !! h) = 0 ->
  finalizeUnstake sender h c p s = Revert (InvalidUnstakeRequest h) s.
Proof.
  intros H. unfold finalizeUnstake, bind, sload. cbn. rewrite H. reflexivity.
Qed.

Lemma finalize_bad_proof (s : State eng) sender h c p :
  default 0 (unstakeRequests s !! h) <> 0 ->
  eng_checkSignatures eng [h] [c] p (fhe s) = false ->
  finalizeUnstake sender h c p s =
  Revert EngineRevert (record (CheckSignatures [h] [c] p) (after_delete h s)).
Proof.
  intros Hto Hsig. unfold finalizeUnstake, bind, sload. cbn.
  apply Z.eqb_neq in Hto. rewrite Hto. cbn.
  unfold FHE_checkSignatures. cbn. now rewrite Hsig.
Qed.

Lemma finalize_overflow (s : State eng) sender h c p :
  default 0 (unstakeRequests s !! h) <> 0 ->
  eng_checkSignatures eng [h] [c] p (fhe s) = true ->
  (c * STAKE_SCALE <=? uint256_max) = false ->
  finalizeUnstake sender h c p s =
  Revert (Panic 17) (record (CheckSignatures [h] [c] p) (after_delete h s)).
Proof.
  intros Hto Hsig Hmul. unfold finalizeUnstake, bind, sload. cbn.
  apply Z.eqb_neq in Hto. rewrite Hto. cbn.
  unfold FHE_checkSignatures. cbn. rewrite Hsig. cbn.
  unfold checked_mul. now rewrite Hmul.
Qed.

Lemma finalize_calls (s : State eng) sender h c p :
  default 0 (unstakeRequests s !! h) <> 0 ->
  eng_checkSignatures eng [h] [c] p (fhe s) = true ->
  (c * STAKE_SCALE <=? uint256_max) = true ->
  let to := default 0 (unstakeRequests s !! h) in
  exists k,
    finalizeUnstake sender h c p s =
      ExternalCall to (c * STAKE_SCALE) (at_call h c p to s) k /\
    k None = Revert TransferFailed (at_call h c p to s) /\
    forall s2, k (Some s2) =
               Ok tt (record (Emit (UnstakeFinalized to c (c * STAKE_SCALE))) s2).
Proof.
  intros Hto Hsig Hmul to. unfold finalizeUnstake, bind, sload. cbn.
  apply Z.eqb_neq in Hto. rewrite Hto. cbn.
  unfold FHE_checkSignatures. cbn. rewrite Hsig. cbn.
  unfold checked_mul. rewrite Hmul. cbn.
  eexists. split; [reflexivity|]. split; [reflexivity|]. intros s2. reflexivity.
Qed.

Lemma finalize_cases (s : State eng) sender h c p :
  finalize_case s h c p (finalizeUnstake sender h c p s).
Proof.
  destruct (Z.eq_dec (default 0 (unstakeRequests s !! h)) 0) as [H0|H0].
  - rewrite finalize_unregistered by assumption. now constructor.
  - destruct (eng_checkSignatures eng [h] [c] p (fhe s)) eqn:Hsig.
    + destruct (c * STAKE_SCALE <=? uint256_max) eqn:Hmul.
      * destruct (finalize_calls s sender h c p H0 Hsig Hmul) as (k & -> & Hn & Hs).
        now constructor.
      * rewrite finalize_overflow by assumption. now constructor.
    + rewrite finalize_bad_proof by assumption. now constructor.
Qed.

End Facts.

(** ** Completed calls of [finalizeUnstake] *)

Section Finalize.

Context {eng : Engine} (W : World).

(** A completed [finalizeUnstake] succeeded only if the handle read a nonzero
    recipient, the proof was accepted, the value call of
    [clear * STAKE_SCALE] wei to that recipient succeeded, and the event
    followed. *)
Lemma finalize_success_inv (s s' : State eng) sender h c p :
  complete W (finalizeUnstake sender h c p s) = Success tt s' ->
  let to := default 0 (unstakeRequests s !! h) in
  let w := c * STAKE_SCALE in
  to <> 0 /\
  eng_checkSignatures eng [h] [c] p (fhe s) = true /\
  w <= uint256_max /\
  value_call W to w (at_call h c p to s) =
    Some (set_balance (balance s - w) (at_call h c p to s)) /\
  s' = record (Emit (UnstakeFinalized to c w))
         (set_balance (balance s - w) (at_call h c p to s)).
Proof.
  intros H to w.
  destruct (finalize_cases s sender h c p) as [H0|H0 Hs|H0 Hs Hm|k to' H0 Hs Hm Hn Hk];
    try discriminate H.
  subst to'. fold to in H, Hn, Hk |- *. cbn [complete] in H.
  destruct (value_call W to (c * STAKE_SCALE) (at_call h c p to s)) as [s2|] eqn:Hv.
  - rewrite Hk in H. cbn in H. injection H as <-.
    assert (E : s2 = set_balance (balance s - w) (at_call h c p to s)).
    { unfold value_call in Hv.
      destruct (_ || _ || _) in Hv; [discriminate|]. now injection Hv as <-. }
    subst s2. repeat split; try assumption. now apply Z.leb_le.
  - rewrite Hn in H. discriminate.
Qed.

(** The host-level failure of the value call turns into [TransferFailed]. *)
Lemma finalize_transfer_failed (s : State eng) sender h c p :
  let to := default 0 (unstakeRequests s !! h) in
  to <> 0 ->
  eng_checkSignatures eng [h] [c] p (fhe s) = true ->
  c * STAKE_SCALE <= uint256_max ->
  value_call W to (c * STAKE_SCALE) (at_call h c p to s) = None ->
  complete W (finalizeUnstake sender h c p s) =
    Failure TransferFailed (at_call h c p to s).
Proof.
  intros to H0 Hs Hm Hv. apply Z.leb_le in Hm.
  destruct (finalize_calls s sender h c p H0 Hs Hm) as (k & -> & Hn & _).
  cbn [complete]. fold to. rewrite Hv, Hn. reflexivity.
Qed.

Lemma finalize_transfer_ok (s : State eng) sender h c p s2 :
  let to := default 0 (unstakeRequests s !! h) in
  to <> 0 ->
  eng_checkSignatures eng [h] [c] p (fhe s) = true ->
  c * STAKE_SCALE <= uint256_max ->
  value_call W to (c * STAKE_SCALE) (at_call h c p to s) = Some s2 ->
  complete W (finalizeUnstake sender h c p s) =
    Success tt (record (Emit (UnstakeFinalized to c (c * STAKE_SCALE))) s2).
Proof.
  intros to H0 Hs Hm Hv. apply Z.leb_le in Hm.
  destruct (finalize_calls s sender h c p H0 Hs Hm) as (k & -> & _ & Hk).
  cbn [complete]. fold to. rewrite Hv, Hk. reflexivity.
Qed.

End Finalize.

(** ** Completed calls with recipients that call back *)

Section FinalizeWith.

Context {eng : Engine} (R : Recipients).

(** With recipients that do not call back, [complete_with] is [complete]. *)
Lemma complete_with_passive {A} (x : Exec eng A) :
  (forall to v, callbacks R to v = []) ->
  complete_with R x = complete (host R) x.
Proof.
  intros P. induction x as [a s|e s|to v s k IH]; [reflexivity..|].
  cbn. rewrite <- IH. unfold value_call_back. rewrite P.
  now destruct (value_call (host R) to v s).
Qed.


End FinalizeWith.

(** ** Replay protection *)

(** C1. Once a [finalizeUnstake] on handle [h] has succeeded, any further
    [finalizeUnstake] on [h], by any caller, with any clear value and proof,
    reverts with [InvalidUnstakeRequest h] at the lookup: it reaches no
    value call, performs no effect, and leaves the state as it was. *)
Theorem finalize_replay_rejected {eng : Engine} (W W' : World)
    (s s' : State eng) sender h c p :
  complete W (finalizeUnstake sender h c p s) = Success tt s' ->
  forall sender' c' p',
    finalizeUnstake sender' h c' p' s' = Revert (InvalidUnstakeRequest h) s' /\
    complete W' (finalizeUnstake sender' h c' p' s') =
      Failure (InvalidUnstakeRequest h) s' /\
    transact W' sender' (MFinalizeUnstake h c' p') s' = s'.
Proof.
  intros H sender' c' p'.
  assert (E : finalizeUnstake sender' h c' p' s' = Revert (InvalidUnstakeRequest h) s').
  { apply finalize_unregistered.
    apply finalize_success_inv in H as (_ & _ & _ & _ & ->).
    cbn. now rewrite lookup_delete_eq. }
  split; [exact E|]. unfold transact, dispatch. rewrite E. cbn. split; reflexivity.
Qed.

Lemma finalize_replay_rejected_witness :
  complete example_world (finalizeUnstake 9 5 5 some_proof pending_example) =
    Success tt finalized_example /\
  finalizeUnstake 7 5 5 some_proof finalized_example =
    Revert (InvalidUnstakeRequest 5) finalized_example.
Proof.
  assert (H : complete example_world (finalizeUnstake 9 5 5 some_proof pending_example) =
              Success tt finalized_example) by reflexivity.
  split; [exact H|].
  apply (finalize_replay_rejected example_world example_world _ _ _ _ _ _ H 7 5 some_proof).
Defined.

(** ** Order of effects in [finalizeUnstake] *)

Lemma trace_at_call {eng : Engine} (s : State eng) h c p to :
  trace (at_call h c p to s) =
  trace s ++ [SDelete h; CheckSignatures [h] [c] p; ValueCall to (c * STAKE_SCALE)].
Proof. cbn. now rewrite <- !app_assoc. Qed.

Lemma requests_at_call {eng : Engine} (s : State eng) h c p to :
  unstakeRequests (at_call h c p to s) = delete h (unstakeRequests s).
Proof. reflexivity. Qed.

(** C2. In every execution of [finalizeUnstake], whatever its outcome, the
    effects performed are an initial segment of: delete the entry, check the
    signatures, make the value call, emit the event; so the deletion comes
    strictly before the proof verification and before the transfer.  When
    the execution reaches the value call, the state in which control is
    handed to the recipient holds no entry for the handle, and any
    [finalizeUnstake] on that handle started from that state reverts with
    [InvalidUnstakeRequest] at the lookup. *)
Theorem delete_precedes_verification_and_transfer {eng : Engine}
    (s : State eng) sender h c p :
  (forall W : World,
     exists done_,
       trace (outcome_state (complete W (finalizeUnstake sender h c p s))) =
         trace s ++ done_ /\
       done_ `prefix_of` finalize_effects h c p (default 0 (unstakeRequests s !! h))) /\
  (forall to w s1 k,
     finalizeUnstake sender h c p s = ExternalCall to w s1 k ->
     unstakeRequests s !! h = Some to /\
     unstakeRequests s1 !! h = None /\
     trace s1 = trace s ++ [SDelete h; CheckSignatures [h] [c] p; ValueCall to w] /\
     forall sender' c' p',
       finalizeUnstake sender' h c' p' s1 = Revert (InvalidUnstakeRequest h) s1).
Proof.
  split.
  - intros W.
    destruct (finalize_cases s sender h c p) as [H0|H0 Hs|H0 Hs Hm|k to H0 Hs Hm Hn Hk];
      cbn [complete outcome_state].
    + exists []. split; [now rewrite app_nil_r|]. apply prefix_nil.
    + exists [SDelete h; CheckSignatures [h] [c] p]. split.
      * cbn. now rewrite <- app_assoc.
      * now eexists.
    + exists [SDelete h; CheckSignatures [h] [c] p]. split.
      * cbn. now rewrite <- app_assoc.
      * now eexists.
    + fold to. destruct (value_call W to (c * STAKE_SCALE) (at_call h c p to s)) as [s2|] eqn:Hv.
      * rewrite Hk. cbn [complete outcome_state].
        unfold value_call in Hv. destruct (_ || _ || _) in Hv; [discriminate|].
        injection Hv as <-.
        exists (finalize_effects h c p to). split; [|reflexivity].
        cbn. now rewrite <- !app_assoc.
      * rewrite Hn. cbn [complete outcome_state].
        exists [SDelete h; CheckSignatures [h] [c] p; ValueCall to (c * STAKE_SCALE)].
        split; [apply trace_at_call | now eexists].
  - intros to w s1 k H.
    destruct (finalize_cases s sender h c p) as [H0|H0 Hs|H0 Hs Hm|k' to' H0 Hs Hm Hn Hk];
      try discriminate H.
    injection H as <- <- <- _.
    split; [|split; [|split]].
    + subst to'. destruct (unstakeRequests s !! h) as [r|]; [reflexivity|]. now cbn in H0.
    + rewrite requests_at_call. apply lookup_delete_eq.
    + apply trace_at_call.
    + intros sender' c' p'. apply finalize_unregistered.
      rewrite requests_at_call. now rewrite lookup_delete_eq.
Qed.

Lemma delete_precedes_verification_and_transfer_witness :
  exists k,
    finalizeUnstake 9 5 5 some_proof pending_example =
      ExternalCall 7 5000000000000 suspended_example k /\
    unstakeRequests suspended_example !! 5 = None /\
    finalizeUnstake 7 5 5 some_proof suspended_example =
      Revert (InvalidUnstakeRequest 5) suspended_example.
Proof.
  destruct (finalize_calls pending_example 9 5 5 some_proof) as (k & H & _);
    [vm_compute; discriminate | reflexivity | reflexivity |].
  exists k. split; [exact H|].
  destruct (delete_precedes_verification_and_transfer pending_example 9 5 5 some_proof)
    as [_ D].
  destruct (D _ _ _ _ H) as (_ & H2 & _ & H4).
  split; [exact H2 | apply H4].
Defined.

(** ** Failure of the transfer *)

Lemma finalize_call_inv {eng : Engine} (s : State eng) sender h c p to w s1 k :
  finalizeUnstake sender h c p s = ExternalCall to w s1 k ->
  to = default 0 (unstakeRequests s !! h) /\ to <> 0 /\
  eng_checkSignatures eng [h] [c] p (fhe s) = true /\
  w = c * STAKE_SCALE /\ w <= uint256_max /\
  s1 = at_call h c p to s /\
  k None = Revert TransferFailed s1 /\
  forall s2, k (Some s2) = Ok tt (record (Emit (UnstakeFinalized to c w)) s2).
Proof.
  intros H.
  destruct (finalize_cases s sender h c p) as [H0|H0 Hs|H0 Hs Hm|k' to' H0 Hs Hm Hn Hk];
    try discriminate H.
  injection H as <- <- <- <-. apply Z.leb_le in Hm. now repeat split.
Qed.

Lemma lookup_nonzero (m : gmap Z Z) (h : handle) (a : address) :
  a = default 0 (m !! h) -> a <> 0 -> m !! h = Some a.
Proof.
  intros -> H. destruct (m !! h); [reflexivity | now cbn in H].
Qed.

(** Replay protection does not depend on the recipient being passive: after
    any successful value call that returns with the handle still
    unregistered, a further [finalizeUnstake] on it reverts at the lookup. *)
Lemma replay_after_any_call {eng : Engine} (s : State eng) sender h c p to w s1 k s2 s' :
  finalizeUnstake sender h c p s = ExternalCall to w s1 k ->
  k (Some s2) = Ok tt s' ->
  unstakeRequests s2 !! h = None ->
  forall sender' c' p',
    finalizeUnstake sender' h c' p' s' = Revert (InvalidUnstakeRequest h) s'.
Proof.
  intros H K N sender' c' p'.
  destruct (finalize_call_inv _ _ _ _ _ _ _ _ _ H) as (_ & _ & _ & _ & _ & _ & _ & Hk).
  rewrite Hk in K. injection K as <-.
  apply finalize_unregistered. cbn. now rewrite N.
Qed.

(** C3. When the value call made by [finalizeUnstake] fails, the call
    fails with [TransferFailed]; the reverted execution had already deleted
    the entry, and the host discards it: the committed state is the state
    before the call, with the entry for the handle still registered for the
    same recipient, the contract's balance untouched and no effect or event
    recorded.  The same request can then be finalized: as soon as the value
    call succeeds, [finalizeUnstake] with the same arguments succeeds from
    the committed state. *)
Theorem transfer_failure_rolls_back {eng : Engine} (W : World)
    (s : State eng) sender h c p to w s1 k :
  finalizeUnstake sender h c p s = ExternalCall to w s1 k ->
  value_call W to w s1 = None ->
  let s' := transact W sender (MFinalizeUnstake h c p) s in
  k None = Revert TransferFailed s1 /\
  complete W (finalizeUnstake sender h c p s) = Failure TransferFailed s1 /\
  unstakeRequests s1 !! h = None /\
  s' = s /\
  unstakeRequests s' !! h = Some to /\
  balance s' = balance s /\
  trace s' = trace s /\
  forall (W' : World) sender' s2,
    value_call W' to w s1 = Some s2 ->
    complete W' (finalizeUnstake sender' h c p s') =
      Success tt (record (Emit (UnstakeFinalized to c w)) s2).
Proof.
  intros H Hv s'.
  destruct (finalize_call_inv _ _ _ _ _ _ _ _ _ H) as (Hto & H0 & Hs & Hw & Hm & Hs1 & Hn & Hk).
  assert (C : complete W (finalizeUnstake sender h c p s) = Failure TransferFailed s1).
  { rewrite H. cbn [complete]. now rewrite Hv, Hn. }
  assert (E : s' = s).
  { unfold s', transact, dispatch. now rewrite C. }
  split; [exact Hn|]. split; [exact C|]. split.
  { rewrite Hs1, requests_at_call. apply lookup_delete_eq. }
  split; [exact E|]. rewrite E. split; [now apply lookup_nonzero|].
  split; [reflexivity|]. split; [reflexivity|].
  intros W' sender' s2 Hv'. subst w to s1.
  now apply finalize_transfer_ok.
Qed.

Lemma transfer_failure_rolls_back_witness :
  exists k,
    finalizeUnstake 9 5 5 some_proof rejecting_example =
      ExternalCall 666 5000000000000
        (at_call 5 5 some_proof 666 rejecting_example) k /\
    complete example_world (finalizeUnstake 9 5 5 some_proof rejecting_example) =
      Failure TransferFailed (at_call 5 5 some_proof 666 rejecting_example) /\
    transact example_world 9 (MFinalizeUnstake 5 5 some_proof) rejecting_example =
      rejecting_example /\
    unstakeRequests rejecting_example !! 5 = Some 666 /\
    complete accepting_world (finalizeUnstake 666 5 5 some_proof rejecting_example) =
      Success tt
        (record (Emit (UnstakeFinalized 666 5 5000000000000))
           (set_balance 5000000000000 (at_call 5 5 some_proof 666 rejecting_example))).
Proof.
  destruct (finalize_calls rejecting_example 9 5 5 some_proof) as (k & H & _);
    [vm_compute; discriminate | reflexivity | reflexivity |].
  exists k. split; [exact H|].
  destruct (transfer_failure_rolls_back example_world _ _ _ _ _ _ _ _ _ H)
    as (_ & C & _ & E & _ & _ & _ & L); [reflexivity|].
  split; [exact C|]. split; [exact E|]. split; [reflexivity|].
  apply (L accepting_world 666). reflexivity.
Defined.

(** ** Stake: validation and minting *)

Section Stake.

Context {eng : Engine}.

Lemma STAKE_SCALE_value : STAKE_SCALE = 10 ^ 12.
Proof. reflexivity. Qed.

Lemma stake_guards (v : Z) :
  misaligned v <->
  (v =? 0) || negb (v mod STAKE_SCALE =? 0) = true \/
  (v / STAKE_SCALE >? uint64_max) = true.
Proof.
  unfold misaligned. rewrite <- STAKE_SCALE_value. fold uint64_max.
  rewrite orb_true_iff, negb_true_iff, Z.eqb_eq, Z.eqb_neq, Z.gtb_gt. tauto.
Qed.

Lemma stake_rejected (s : State eng) sender v :
  misaligned v ->
  stake sender v s = Revert InvalidStakeAmount (set_balance (balance s + v) s).
Proof.
  intros H. apply stake_guards in H. unfold stake, bind, receive_value. cbn.
  destruct ((v =? 0) || negb (v mod STAKE_SCALE =? 0)) eqn:G1; cbn; [reflexivity|].
  destruct H as [H|H]; [discriminate|]. now rewrite H.
Qed.

Lemma stake_accepted (s : State eng) sender v :
  ~ misaligned v ->
  stake sender v s = stake_accepted_result s sender v.
Proof.
  intros H. rewrite stake_guards in H.
  destruct ((v =? 0) || negb (v mod STAKE_SCALE =? 0)) eqn:G1; [tauto|].
  destruct (v / STAKE_SCALE >? uint64_max) eqn:G2; [tauto|].
  unfold stake, stake_accepted_result, bind, receive_value. cbn.
  rewrite G1. cbn. rewrite G2. cbn. unfold toUint64. rewrite G2. cbn.
  unfold FHE_asEuint64. cbn.
  destruct (eng_asEuint64 eng (v / STAKE_SCALE) (fhe s)) as [encrypted e1]. cbn.
  unfold _mint, lift_engine. cbn.
  destruct (eng_mint eng sender encrypted e1) as [[minted e2]|]; reflexivity.
Qed.

Lemma misaligned_dec (v : Z) : {misaligned v} + {~ misaligned v}.
Proof.
  unfold misaligned.
  destruct (Z.eq_dec v 0); [left; tauto|].
  destruct (Z.eq_dec (v mod 10 ^ 12) 0); [|left; tauto].
  destruct (Z_gt_dec (v / 10 ^ 12) (2 ^ 64 - 1)); [left; tauto|right; tauto].
Qed.

End Stake.

(** C4. [stake] fails with [InvalidStakeAmount] exactly when the amount is
    zero, or is not a multiple of 10^12, or its quotient by 10^12 exceeds
    2^64 - 1.  On such a rejection the execution has touched neither the
    engine (no balance is minted) nor the registry, has recorded no effect
    (no event), and the committed state is the state before the call. *)
Theorem stake_rejects_exactly_misaligned {eng : Engine} (s : State eng) sender v :
  ((exists s1, stake sender v s = Revert InvalidStakeAmount s1) <-> misaligned v) /\
  (misaligned v ->
   exists s1,
     stake sender v s = Revert InvalidStakeAmount s1 /\
     fhe s1 = fhe s /\ unstakeRequests s1 = unstakeRequests s /\ trace s1 = trace s /\
     forall W : World, transact W sender (MStake v) s = s).
Proof.
  split; [split|].
  - intros [s1 H]. destruct (misaligned_dec v) as [B|G]; [exact B|].
    rewrite (stake_accepted s sender v G) in H. unfold stake_accepted_result in H.
    destruct (eng_asEuint64 eng _ _) as [encrypted e1].
    destruct (eng_mint eng sender encrypted e1) as [[minted e2]|]; discriminate H.
  - intros B. eexists. now apply stake_rejected.
  - intros B. eexists. split; [now apply stake_rejected|].
    repeat split. intros W. unfold transact, dispatch, bind.
    rewrite (stake_rejected s sender v B). reflexivity.
Qed.

Lemma stake_rejects_exactly_misaligned_witness :
  misaligned 1 /\
  exists s1,
    stake 7 1 fresh_example = Revert InvalidStakeAmount s1 /\
    fhe s1 = fhe fresh_example /\ trace s1 = [] /\
    transact example_world 7 (MStake 1) fresh_example = fresh_example.
Proof.
  assert (B : misaligned 1) by (right; left; vm_compute; discriminate).
  split; [exact B|].
  destruct (stake_rejects_exactly_misaligned fresh_example 7 1) as [_ H].
  destruct (H B) as (s1 & H1 & H2 & _ & H4 & H5).
  exists s1. split; [exact H1|]. split; [exact H2|]. split; [exact H4 | apply H5].
Defined.

(** ** Request unstake: burn and registration *)

Section Request.

Context {eng : Engine}.

Lemma _requestUnstake_unfold (s : State eng) from amount :
  _requestUnstake from amount s =
  match eng_burn eng from amount (fhe s) with
  | Some (burnt, e1) => register_result s from burnt e1
  | None => Revert EngineRevert s
  end.
Proof.
  unfold _requestUnstake, bind, _burn, lift_engine, register_result. cbn.
  destruct (eng_burn eng from amount (fhe s)) as [[burnt e1]|]; cbn; [|reflexivity].
  destruct (default 0 (unstakeRequests s !! burnt) =? 0); reflexivity.
Qed.

Lemma requestUnstake_unfold (s : State eng) sender amount :
  requestUnstake sender amount s =
  if eng_isAllowed eng amount sender (fhe s) then _requestUnstake sender amount s
  else Revert (ERC7984UnauthorizedUseOfEncryptedAmount amount sender) s.
Proof.
  unfold requestUnstake, bind, FHE_isAllowed. cbn.
  destruct (eng_isAllowed eng amount sender (fhe s)); cbn; [|reflexivity].
  now destruct (_requestUnstake sender amount s).
Qed.

Lemma requestUnstake_external_unfold (s : State eng) sender x proof :
  requestUnstake_external sender x proof s =
  match eng_fromExternal eng x proof sender (fhe s) with
  | Some (amount, e0) =>
      _requestUnstake sender amount (mkState eng (unstakeRequests s) e0 (balance s) (trace s))
  | None => Revert EngineRevert s
  end.
Proof.
  unfold requestUnstake_external, bind, FHE_fromExternal, lift_engine. cbn.
  destruct (eng_fromExternal eng x proof sender (fhe s)) as [[amount e0]|]; cbn;
    [|reflexivity].
  now destruct (_requestUnstake sender amount _).
Qed.

(** A successful [_requestUnstake]: the engine burnt, the handle read the
    zero address, and the caller was stored under it. *)
Lemma _requestUnstake_success (s s1 : State eng) from amount burnt :
  _requestUnstake from amount s = Ok burnt s1 ->
  exists e1,
    eng_burn eng from amount (fhe s) = Some (burnt, e1) /\
    default 0 (unstakeRequests s !! burnt) = 0 /\
    unstakeRequests s1 = <[burnt := from]> (unstakeRequests s) /\
    fhe s1 = eng_makePubliclyDecryptable eng burnt e1 /\
    balance s1 = balance s /\
    trace s1 = trace s ++ [SStore burnt from; Emit (UnstakeRequested from burnt)].
Proof.
  rewrite _requestUnstake_unfold.
  destruct (eng_burn eng from amount (fhe s)) as [[b e1]|]; [|discriminate].
  unfold register_result.
  destruct (default 0 (unstakeRequests s !! b) =? 0) eqn:G; [|discriminate].
  intros H. injection H as <- <-. exists e1. apply Z.eqb_eq in G.
  repeat split; try assumption. cbn. now rewrite <- app_assoc.
Qed.

Lemma requested_inv (s s1 : State eng) sender burnt :
  requested sender s burnt s1 ->
  exists s0 amount,
    unstakeRequests s0 = unstakeRequests s /\ balance s0 = balance s /\
    trace s0 = trace s /\
    (fhe s0 = fhe s \/
     exists x proof, eng_fromExternal eng x proof sender (fhe s) = Some (amount, fhe s0)) /\
    _requestUnstake sender amount s0 = Ok burnt s1.
Proof.
  intros [[amount H]|(x & proof & H)].
  - rewrite requestUnstake_unfold in H.
    destruct (eng_isAllowed eng amount sender (fhe s)); [|discriminate].
    exists s, amount. repeat split; tauto.
  - rewrite requestUnstake_external_unfold in H.
    destruct (eng_fromExternal eng x proof sender (fhe s)) as [[amount e0]|] eqn:E;
      [|discriminate].
    exists (mkState eng (unstakeRequests s) e0 (balance s) (trace s)), amount.
    repeat split; [| exact H]. right. exists x, proof. exact E.
Qed.

End Request.

(** ** Mint and burn conservation *)


Example scenario_A :
  stake 7 2000000000000000000 scenario_start = Ok 2000000 scenario_staked.
Proof. reflexivity. Qed.

Example scenario_request :
  requestUnstake_external 7 1000000 some_proof scenario_staked =
    Ok 1000000 scenario_requested.
Proof. reflexivity. Qed.

Example scenario_B :
  complete example_world (finalizeUnstake 7 1000000 1000000 some_proof scenario_requested) =
    Success tt scenario_finalized.
Proof. reflexivity. Qed.

Lemma saturating_engine_lawful : EngineLaws saturating_engine.
Proof.
  constructor; unfold decryptedBalance; cbn.
  - intros u e h e' H. injection H as <- <-. split; reflexivity.
  - intros to h e t e'. destruct (to =? 0); [discriminate|].
    intros H. injection H as <- <-. cbn. now rewrite lookup_insert_eq.
  - intros to h e t e'. destruct (to =? 0); [discriminate|].
    intros H. injection H as <- <-. destruct (e.2 + h <=? uint64_max); tauto.
  - intros from h e t e'. destruct (from =? 0); [discriminate|].
    intros H. injection H as <- <-. cbn. rewrite lookup_insert_eq. cbn. lia.
  - intros x p c e h e'. destruct p; [discriminate|].
    intros H. injection H as <- <-. reflexivity.
  - reflexivity.
  - reflexivity.
  - intros h c p e. destruct p; [discriminate|].
    intros H. apply bool_decide_eq_true in H. now injection H.
Qed.

Example scenario_B_restaked :
  complete_with restaking_recipients
    (finalizeUnstake 9 1000000 1000000 some_proof scenario_requested) =
    Success tt restaked_example.
Proof. reflexivity. Qed.

Example full_supply_stake :
  stake 9 1000000000000 full_supply_example = Ok 0 full_supply_staked.
Proof. reflexivity. Qed.




(** ** The duplicate-handle guard *)

(** C6. When the burn performed by a request to unstake returns a handle
    that is already registered for a recipient, the request reverts with
    [InvalidUnstakeRequest] on that handle, through either entry point, and
    the registration stands as it was, in the reverted execution as in the
    committed state.  A request that succeeds leaves every existing
    registration as it was: a handle never changes recipient while it is
    registered. *)
Theorem duplicate_handle_rejected {eng : Engine} (s : State eng) (burnt : handle)
    (r : address) :
  unstakeRequests s !! burnt = Some r -> r <> 0 ->
  (forall from amount e1,
     eng_burn eng from amount (fhe s) = Some (burnt, e1) ->
     exists s1,
       _requestUnstake from amount s = Revert (InvalidUnstakeRequest burnt) s1 /\
       unstakeRequests s1 = unstakeRequests s) /\
  (forall (W : World) sender amount e1,
     eng_isAllowed eng amount sender (fhe s) = true ->
     eng_burn eng sender amount (fhe s) = Some (burnt, e1) ->
     (exists s1,
        requestUnstake sender amount s = Revert (InvalidUnstakeRequest burnt) s1 /\
        unstakeRequests s1 !! burnt = Some r) /\
     transact W sender (MRequestUnstake amount) s = s) /\
  (forall (W : World) sender x proof amount e0 e1,
     eng_fromExternal eng x proof sender (fhe s) = Some (amount, e0) ->
     eng_burn eng sender amount e0 = Some (burnt, e1) ->
     (exists s1,
        requestUnstake_external sender x proof s =
          Revert (InvalidUnstakeRequest burnt) s1 /\
        unstakeRequests s1 !! burnt = Some r) /\
     transact W sender (MRequestUnstakeExternal x proof) s = s) /\
  (forall sender burnt' s1,
     requested sender s burnt' s1 ->
     burnt' <> burnt /\ unstakeRequests s1 !! burnt = Some r).
Proof.
  intros Hr Hnz.
  assert (G : forall (s0 : State eng) from amount e1,
            unstakeRequests s0 = unstakeRequests s ->
            eng_burn eng from amount (fhe s0) = Some (burnt, e1) ->
            exists s1,
              _requestUnstake from amount s0 = Revert (InvalidUnstakeRequest burnt) s1 /\
              unstakeRequests s1 = unstakeRequests s).
  { intros s0 from amount e1 E0 Eb. rewrite _requestUnstake_unfold, Eb.
    unfold register_result. rewrite E0, Hr. cbn.
    apply Z.eqb_neq in Hnz. rewrite Hnz. eexists. split; reflexivity. }
  split; [|split; [|split]].
  - intros from amount e1 Eb. now apply (G s from amount e1).
  - intros W sender amount e1 Ha Eb.
    destruct (G s sender amount e1 eq_refl Eb) as (s1 & E & Q).
    assert (E' : requestUnstake sender amount s = Revert (InvalidUnstakeRequest burnt) s1).
    { now rewrite requestUnstake_unfold, Ha. }
    split.
    + exists s1. split; [exact E'|]. now rewrite Q.
    + unfold transact, dispatch, bind. now rewrite E'.
  - intros W sender x proof amount e0 e1 Ex Eb.
    destruct (G (mkState eng (unstakeRequests s) e0 (balance s) (trace s))
                sender amount e1 eq_refl Eb) as (s1 & E & Q).
    assert (E' : requestUnstake_external sender x proof s =
                 Revert (InvalidUnstakeRequest burnt) s1).
    { now rewrite requestUnstake_external_unfold, Ex. }
    split.
    + exists s1. split; [exact E'|]. now rewrite Q.
    + unfold transact, dispatch, bind. now rewrite E'.
  - intros sender burnt' s1 R.
    apply requested_inv in R as (s0 & amount & E0 & _ & _ & _ & R).
    apply _requestUnstake_success in R as (e1 & _ & Hz & Hm & _).
    rewrite E0 in Hz, Hm.
    assert (N : burnt' <> burnt).
    { intros ->. rewrite Hr in Hz. now cbn in Hz. }
    split; [exact N|]. rewrite Hm. now rewrite lookup_insert_ne.
Qed.

Lemma duplicate_handle_rejected_witness :
  unstakeRequests scenario_requested !! 1000000 = Some 7 /\
  (exists s1,
     requestUnstake 7 1000000 scenario_requested =
       Revert (InvalidUnstakeRequest 1000000) s1 /\
     unstakeRequests s1 !! 1000000 = Some 7) /\
  transact example_world 7 (MRequestUnstake 1000000) scenario_requested =
    scenario_requested.
Proof.
  assert (H : unstakeRequests scenario_requested !! 1000000 = Some 7) by reflexivity.
  split; [exact H|].
  destruct (duplicate_handle_rejected scenario_requested 1000000 7 H) as (_ & D & _);
    [discriminate|].
  apply (D example_world 7 1000000 {[ 7 := 0 ]}); reflexivity.
Defined.

(** ** The caller of [finalizeUnstake] *)

(** C8. [finalizeUnstake] does not look at its caller: started by two
    callers on the same state with the same handle, clear value and proof,
    the executions are the same, and so are their outcomes in any world and
    the states they commit.  When the handle was registered by a request of
    [staker], the one value call of a successful finalization goes to
    [staker], whoever the caller is. *)
Theorem finalize_ignores_caller {eng : Engine} (s : State eng) caller1 caller2 h c p :
  finalizeUnstake caller1 h c p s = finalizeUnstake caller2 h c p s /\
  (forall W : World,
     dispatch W caller1 (MFinalizeUnstake h c p) s =
       dispatch W caller2 (MFinalizeUnstake h c p) s /\
     transact W caller1 (MFinalizeUnstake h c p) s =
       transact W caller2 (MFinalizeUnstake h c p) s) /\
  (forall (W : World) s0 staker s',
     requested staker s0 h s ->
     complete W (finalizeUnstake caller1 h c p s) = Success tt s' ->
     exists done_,
       trace s' = trace s ++ done_ /\
       forall to w, In (ValueCall to w) done_ <-> to = staker /\ w = c * 10 ^ 12).
Proof.
  split; [reflexivity|]. split; [intros W; split; reflexivity|].
  intros W s0 staker s' R F.
  assert (Hst : default 0 (unstakeRequests s !! h) = staker).
  { apply requested_inv in R as (s00 & amount & _ & _ & _ & _ & R).
    apply _requestUnstake_success in R as (e1 & _ & _ & Hm & _).
    now rewrite Hm, lookup_insert_eq. }
  apply finalize_success_inv in F as (_ & _ & _ & _ & ->). rewrite Hst.
  exists (finalize_effects h c p staker). split.
  - cbn. now rewrite <- !app_assoc.
  - intros to w. unfold finalize_effects. rewrite <- STAKE_SCALE_value. cbn. split.
    + intros [H|[H|[H|[H|[]]]]]; try discriminate H. now injection H as <- <-.
    + intros [-> ->]. tauto.
Qed.

Lemma finalize_ignores_caller_witness :
  requested 7 scenario_staked 1000000 scenario_requested /\
  complete example_world
    (finalizeUnstake 9 1000000 1000000 some_proof scenario_requested) =
    Success tt scenario_finalized /\
  exists done_,
    trace scenario_finalized = trace scenario_requested ++ done_ /\
    In (ValueCall 7 (1000000 * 10 ^ 12)) done_ /\
    ~ In (ValueCall 9 (1000000 * 10 ^ 12)) done_.
Proof.
  assert (R : requested 7 scenario_staked 1000000 scenario_requested)
    by (right; exists 1000000, some_proof; reflexivity).
  assert (F : complete example_world
                (finalizeUnstake 9 1000000 1000000 some_proof scenario_requested) =
              Success tt scenario_finalized) by reflexivity.
  split; [exact R|]. split; [exact F|].
  destruct (finalize_ignores_caller scenario_requested 9 7 1000000 1000000 some_proof)
    as (_ & _ & H).
  destruct (H example_world _ _ _ R F) as (done_ & T & C).
  exists done_. split; [exact T|]. split.
  - apply C. split; reflexivity.
  - intros I. apply C in I as [I _]. discriminate I.
Defined.

(** ** The registry invariant *)

Section Invariant.

Context {eng : Engine} (W : World).

Lemma transact_stake_requests (s : State eng) sender v :
  unstakeRequests (transact W sender (MStake v) s) = unstakeRequests s.
Proof.
  unfold transact, dispatch, bind.
  destruct (misaligned_dec v) as [B|G].
  { now rewrite (stake_rejected s sender v B). }
  rewrite (stake_accepted s sender v G). unfold stake_accepted_result.
  destruct (eng_asEuint64 eng _ _) as [encrypted e1].
  destruct (eng_mint eng sender encrypted e1) as [[t e2]|]; reflexivity.
Qed.

Lemma commit__requestUnstake (s s0 : State eng) sender amount :
  unstakeRequests s0 = unstakeRequests s ->
  let s' := commit s (complete W (bindE (_requestUnstake sender amount s0)
                                    (fun _ => ret tt))) in
  unstakeRequests s' = unstakeRequests s \/
  exists burnt,
    (exists e1, eng_burn eng sender amount (fhe s0) = Some (burnt, e1)) /\
    unstakeRequests s' = <[burnt := sender]> (unstakeRequests s).
Proof.
  intros E0. rewrite _requestUnstake_unfold.
  destruct (eng_burn eng sender amount (fhe s0)) as [[burnt e1]|]; [|now left].
  unfold register_result. rewrite E0.
  destruct (default 0 (unstakeRequests s !! burnt) =? 0); [|now left].
  right. exists burnt. split; [now exists e1 | reflexivity].
Qed.

(** A request either leaves the registry as it was, or the engine burnt for
    the sender and the sender was stored under the burnt-amount handle. *)
Lemma transact_request_requests (s : State eng) sender m :
  (exists amount, m = MRequestUnstake amount) \/
  (exists x proof, m = MRequestUnstakeExternal x proof) ->
  unstakeRequests (transact W sender m s) = unstakeRequests s \/
  exists burnt,
    (exists amount e0 e1, eng_burn eng sender amount e0 = Some (burnt, e1)) /\
    unstakeRequests (transact W sender m s) = <[burnt := sender]> (unstakeRequests s).
Proof.
  intros [[amount ->]|(x & proof & ->)]; unfold transact, dispatch, bind.
  - rewrite requestUnstake_unfold.
    destruct (eng_isAllowed eng amount sender (fhe s)); [|now left].
    destruct (commit__requestUnstake s s sender amount eq_refl)
      as [E|(burnt & [e1 B] & E)]; [now left|].
    right. exists burnt. split; [now exists amount, (fhe s), e1 | exact E].
  - rewrite requestUnstake_external_unfold.
    destruct (eng_fromExternal eng x proof sender (fhe s)) as [[amount e0]|]; [|now left].
    destruct (commit__requestUnstake s
                (mkState eng (unstakeRequests s) e0 (balance s) (trace s))
                sender amount eq_refl)
      as [E|(burnt & [e1 B] & E)]; [now left|].
    right. exists burnt. split; [now exists amount, e0, e1 | exact E].
Qed.

Lemma transact_finalize_requests (s : State eng) sender h c p :
  let s' := transact W sender (MFinalizeUnstake h c p) s in
  unstakeRequests s' = unstakeRequests s \/
  unstakeRequests s' = delete h (unstakeRequests s).
Proof.
  unfold transact, dispatch.
  destruct (complete W (finalizeUnstake sender h c p s)) as [[] s1|e s1] eqn:F; [|now left].
  apply finalize_success_inv in F as (_ & _ & _ & _ & ->). now right.
Qed.

(** Every operation preserves the invariant, provided the sender is not the
    zero address, or the engine refuses to burn from it. *)
Lemma transact_preserves_nonzero (s : State eng) sender m :
  sender <> 0 \/ burn_rejects_zero eng ->
  recipients_nonzero s -> recipients_nonzero (transact W sender m s).
Proof.
  intros Hs I h r.
  assert (N : forall burnt,
            (exists amount e0 e1, eng_burn eng sender amount e0 = Some (burnt, e1)) ->
            sender <> 0).
  { intros burnt (amount & e0 & e1 & B). destruct Hs as [Hs|Hs]; [exact Hs|].
    intros ->. now rewrite Hs in B. }
  destruct m as [v|x proof|amount|h' c p].
  - rewrite transact_stake_requests. apply I.
  - destruct (transact_request_requests s sender (MRequestUnstakeExternal x proof))
      as [->|(burnt & B & ->)]; [right; now exists x, proof | apply I |].
    rewrite lookup_insert. case_decide; [intros [= <-]; now apply (N burnt) | apply I].
  - destruct (transact_request_requests s sender (MRequestUnstake amount))
      as [->|(burnt & B & ->)]; [left; now exists amount | apply I |].
    rewrite lookup_insert. case_decide; [intros [= <-]; now apply (N burnt) | apply I].
  - destruct (transact_finalize_requests s sender h' c p) as [->| ->]; [apply I|].
    rewrite lookup_delete. case_decide; [discriminate | apply I].
Qed.

Lemma reachable_recipients_nonzero (e : enc eng) (b : Z) (s : State eng) :
  reachable W (deployed e b) s -> recipients_nonzero s.
Proof.
  induction 1 as [|s sender m _ IH Hs].
  - intros h r. cbn. now rewrite lookup_empty.
  - apply transact_preserves_nonzero; [now left | exact IH].
Qed.

Lemma zero_read_iff_absent (s : State eng) (h : handle) :
  recipients_nonzero s ->
  default 0 (unstakeRequests s !! h) = 0 <-> unstakeRequests s !! h = None.
Proof.
  intros I. split.
  - destruct (unstakeRequests s !! h) as [r|] eqn:E; [|reflexivity].
    cbn. intros ->. now apply I in E.
  - now intros ->.
Qed.

End Invariant.

(** C9. In every state the ledger can reach from deployment by transactions
    of nonzero senders, every entry of the pending-withdrawal table holds a
    nonzero recipient, and every operation preserves this.  So the registry
    reads the zero address at a handle exactly when it holds no entry for
    it, and [finalizeUnstake] reverts with [InvalidUnstakeRequest] exactly
    on the handles that hold no entry.  The recipient stored by a successful
    request is its caller. *)
Theorem registered_recipients_nonzero {eng : Engine} (W : World) (e : enc eng) (b : Z)
    (s : State eng) :
  reachable W (deployed e b) s ->
  recipients_nonzero s /\
  (forall sender m, sender <> 0 -> recipients_nonzero (transact W sender m s)) /\
  (forall h, default 0 (unstakeRequests s !! h) = 0 <-> unstakeRequests s !! h = None) /\
  (forall caller h c p,
     (exists s1, finalizeUnstake caller h c p s = Revert (InvalidUnstakeRequest h) s1) <->
     unstakeRequests s !! h = None) /\
  (forall sender burnt s1,
     requested sender s burnt s1 -> unstakeRequests s1 !! burnt = Some sender).
Proof.
  intros R. pose proof (reachable_recipients_nonzero W e b s R) as I.
  split; [exact I|]. split; [|split; [|split]].
  - intros sender m Hs. apply transact_preserves_nonzero; [now left | exact I].
  - intros h. now apply zero_read_iff_absent.
  - intros caller h c p. rewrite <- (zero_read_iff_absent s h I). split.
    + intros [s1 H].
      destruct (finalize_cases s caller h c p) as [H0|H0 Hs|H0 Hs Hm|k to H0 Hs Hm Hn Hk];
        try discriminate H. exact H0.
    + intros H0. exists s. now apply finalize_unregistered.
  - intros sender burnt s1 Q.
    apply requested_inv in Q as (s0 & amount & _ & _ & _ & _ & Q).
    apply _requestUnstake_success in Q as (e1 & _ & _ & Hm & _).
    rewrite Hm. apply lookup_insert_eq.
Qed.

Lemma scenario_requested_reachable :
  reachable example_world (deployed (eng := clear_engine) ∅ 0) scenario_requested.
Proof.
  apply (reach_transact example_world _ scenario_staked 7
           (MRequestUnstakeExternal 1000000 some_proof)); [|discriminate].
  apply (reach_transact example_world _ scenario_start 7
           (MStake 2000000000000000000)); [|discriminate].
  apply reach_deploy.
Defined.

Lemma registered_recipients_nonzero_witness :
  recipients_nonzero scenario_requested /\
  (default 0 (unstakeRequests scenario_requested !! 5) = 0 <->
   unstakeRequests scenario_requested !! 5 = None).
Proof.
  destruct (registered_recipients_nonzero example_world _ _ _ scenario_requested_reachable)
    as (I & _ & Z0 & _).
  split; [exact I | apply Z0].
Defined.

(** ** The wei amount *)

(** C10. For a clear value in the range of [uint64], the product with
    [STAKE_SCALE] is at most (2^64 - 1) * 10^12, below 2^256: the checked
    multiplication returns the exact product, and [finalizeUnstake] never
    fails with the arithmetic panic. *)
Theorem wei_amount_never_overflows {eng : Engine} (c : Z) :
  0 <= c <= 2 ^ 64 - 1 ->
  c * STAKE_SCALE <= (2 ^ 64 - 1) * 10 ^ 12 /\
  (2 ^ 64 - 1) * 10 ^ 12 < 2 ^ 256 /\
  (forall s : State eng, checked_mul c STAKE_SCALE s = Ok (c * 10 ^ 12) s) /\
  (forall (s s1 : State eng) caller h p code,
     finalizeUnstake caller h c p s <> Revert (Panic code) s1) /\
  (forall (W : World) (s s1 : State eng) caller h p code,
     complete W (finalizeUnstake caller h c p s) <> Failure (Panic code) s1).
Proof.
  intros Hc.
  assert (B : c * STAKE_SCALE <= (2 ^ 64 - 1) * 10 ^ 12).
  { rewrite <- STAKE_SCALE_value. apply Z.mul_le_mono_nonneg_r; [easy | lia]. }
  assert (L : (2 ^ 64 - 1) * 10 ^ 12 < 2 ^ 256) by reflexivity.
  assert (M : (c * STAKE_SCALE <=? uint256_max) = true).
  { apply Z.leb_le. unfold uint256_max. lia. }
  split; [exact B|]. split; [exact L|]. split; [|split].
  - intros s. unfold checked_mul. rewrite M. reflexivity.
  - intros s s1 caller h p code H.
    destruct (finalize_cases s caller h c p) as [H0|H0 Hs|H0 Hs Hm|k to H0 Hs Hm Hn Hk];
      try discriminate H. congruence.
  - intros W s s1 caller h p code H.
    destruct (finalize_cases s caller h c p) as [H0|H0 Hs|H0 Hs Hm|k to H0 Hs Hm Hn Hk];
      try discriminate H; [congruence|].
    cbn [complete] in H.
    destruct (value_call W to (c * STAKE_SCALE) (at_call h c p to s)) as [s2|].
    + rewrite Hk in H. discriminate H.
    + rewrite Hn in H. discriminate H.
Qed.

Lemma wei_amount_never_overflows_witness :
  (2 ^ 64 - 1) * STAKE_SCALE <= (2 ^ 64 - 1) * 10 ^ 12 /\
  checked_mul (2 ^ 64 - 1) STAKE_SCALE scenario_start =
    Ok ((2 ^ 64 - 1) * 10 ^ 12) scenario_start.
Proof.
  destruct (wei_amount_never_overflows (eng := clear_engine) (2 ^ 64 - 1))
    as (B & _ & M & _); [lia|].
  split; [exact B | apply M].
Defined.

(** * Further properties of the ledger *)

(** ** Outcomes of [stake] *)

Lemma stake_accepted_cases {eng : Engine} (s : State eng) sender v :
  ~ misaligned v ->
  (exists minted e2,
     stake sender v s =
       Ok minted (record (Emit (Staked sender v (v / STAKE_SCALE)))
                    (mkState eng (unstakeRequests s) e2 (balance s + v) (trace s))) /\
     mint_accepts sender v s) \/
  (exists s1, stake sender v s = Revert EngineRevert s1 /\ ~ mint_accepts sender v s).
Proof.
  intros G. rewrite (stake_accepted s sender v G).
  unfold stake_accepted_result, mint_accepts. cbn.
  destruct (eng_asEuint64 eng (v / STAKE_SCALE) (fhe s)) as [encrypted e1]. cbn.
  destruct (eng_mint eng sender encrypted e1) as [[minted e2]|].
  - left. exists minted, e2. split; [reflexivity | now eexists].
  - right. eexists. split; [reflexivity|]. now intros [? ?].
Qed.

(** X1. [stake] succeeds exactly when the amount passes validation and the
    engine accepts the mint.  It fails in two ways only, with
    [InvalidStakeAmount] or with the engine's own revert: the downcast to
    [uint64] is guarded by the range check and never fails, and [stake]
    makes no value call. *)
Theorem stake_succeeds_iff {eng : Engine} (s : State eng) sender v :
  ((exists minted s', stake sender v s = Ok minted s') <->
   ~ misaligned v /\ mint_accepts sender v s) /\
  (forall e s1, stake sender v s = Revert e s1 ->
     e = InvalidStakeAmount /\ misaligned v \/
     e = EngineRevert /\ ~ misaligned v /\ ~ mint_accepts sender v s) /\
  (forall to w s1 k, stake sender v s <> ExternalCall to w s1 k).
Proof.
  destruct (misaligned_dec v) as [B|G].
  - pose proof (stake_rejected s sender v B) as R. rewrite R.
    split; [split|split].
    + intros (minted & s' & H). discriminate H.
    + intros [G _]. contradiction.
    + intros e s1 H. injection H as <- <-. now left.
    + intros to w s1 k H. discriminate H.
  - destruct (stake_accepted_cases s sender v G) as [(minted & e2 & -> & A)|(s1 & -> & A)].
    + split; [split|split].
      * intros _. now split.
      * intros _. now eexists _, _.
      * intros e s1 H. discriminate H.
      * intros to w s1 k H. discriminate H.
    + split; [split|split].
      * intros (minted & s' & H). discriminate H.
      * intros [_ A']. contradiction.
      * intros e s1' H. injection H as <- <-. right. now repeat split.
      * intros to w s1' k H. discriminate H.
Qed.

(** X2. A successful [stake] asks the engine to mint, to the sender, the
    encryption of [msg.value / 10^12] units, and returns the handle that
    mint returned, without looking at what was minted; it emits [Staked]
    with the sender, [msg.value] and those units, credits the contract with
    exactly [msg.value] and leaves the pending-withdrawal table as it was.
    The units convert back to [msg.value] without remainder; they fit
    [uint64], and for a [msg.value] in the range of [uint256] they are at
    least one. *)
Theorem stake_success_effects {eng : Engine} (s s' : State eng) sender v minted :
  stake sender v s = Ok minted s' ->
  let units := v / 10 ^ 12 in
  (exists encrypted e1,
     eng_asEuint64 eng units (fhe s) = (encrypted, e1) /\
     eng_mint eng sender encrypted e1 = Some (minted, fhe s')) /\
  trace s' = trace s ++ [Emit (Staked sender v units)] /\
  balance s' = balance s + v /\
  unstakeRequests s' = unstakeRequests s /\
  units * 10 ^ 12 = v /\
  units <= 2 ^ 64 - 1 /\
  (0 <= v -> 1 <= units).
Proof.
  intros H units. subst units. destruct (misaligned_dec v) as [B|G].
  { rewrite (stake_rejected s sender v B) in H. discriminate. }
  rewrite (stake_accepted s sender v G) in H. unfold stake_accepted_result in H.
  rewrite <- STAKE_SCALE_value. cbn in H.
  destruct (eng_asEuint64 eng (v / STAKE_SCALE) (fhe s)) as [encrypted e1] eqn:E1.
  destruct (eng_mint eng sender encrypted e1) as [[t e2]|] eqn:E2; [|discriminate].
  injection H as <- <-. cbn.
  split; [now exists encrypted, e1|].
  rewrite STAKE_SCALE_value. unfold misaligned in G.
  assert (M : v mod 10 ^ 12 = 0) by (destruct (Z.eq_dec (v mod 10 ^ 12) 0); tauto).
  assert (N : v <> 0) by tauto.
  assert (D : v = 10 ^ 12 * (v / 10 ^ 12)).
  { pose proof (Z.div_mod v (10 ^ 12)). lia. }
  repeat split; try reflexivity; lia.
Qed.

Lemma stake_success_effects_witness :
  stake 9 1000000000000 full_supply_example = Ok 0 full_supply_staked /\
  eng_mint saturating_engine 9 1 (fhe full_supply_example) =
    Some (0, fhe full_supply_staked) /\
  trace full_supply_staked = [Emit (Staked 9 1000000000000 1)] /\
  balance full_supply_staked = balance full_supply_example + 1000000000000.
Proof.
  assert (H : stake 9 1000000000000 full_supply_example = Ok 0 full_supply_staked)
    by reflexivity.
  destruct (stake_success_effects _ _ _ _ _ H) as ((enc1 & e1 & A & M) & T & B & _).
  split; [exact H|]. injection A as <- <-.
  split; [exact M|]. split; [exact T | exact B].
Defined.

(** ** Outcomes of a request to unstake *)

Lemma _requestUnstake_cases {eng : Engine} (s : State eng) from amount :
  (_requestUnstake from amount s = Revert EngineRevert s /\
   eng_burn eng from amount (fhe s) = None) \/
  (exists burnt e1,
     eng_burn eng from amount (fhe s) = Some (burnt, e1) /\
     default 0 (unstakeRequests s !! burnt) <> 0 /\
     _requestUnstake from amount s =
       Revert (InvalidUnstakeRequest burnt)
         (mkState eng (unstakeRequests s) (eng_makePubliclyDecryptable eng burnt e1)
            (balance s) (trace s))) \/
  (exists burnt s1, _requestUnstake from amount s = Ok burnt s1).
Proof.
  rewrite _requestUnstake_unfold.
  destruct (eng_burn eng from amount (fhe s)) as [[burnt e1]|]; [|now left].
  right. unfold register_result.
  destruct (default 0 (unstakeRequests s !! burnt) =? 0) eqn:G.
  - right. now eexists _, _.
  - left. exists burnt, e1. apply Z.eqb_neq in G. now repeat split.
Qed.

(** X3. The handle form of [requestUnstake] reverts with
    [ERC7984UnauthorizedUseOfEncryptedAmount], naming the handle and the
    caller, exactly when the engine does not allow the caller on the handle;
    it does so before any burn, in the state it was called in.  The
    external-input form never fails with that error. *)
Theorem request_requires_permission {eng : Engine} (s : State eng) sender amount :
  (eng_isAllowed eng amount sender (fhe s) = false <->
   requestUnstake sender amount s =
     Revert (ERC7984UnauthorizedUseOfEncryptedAmount amount sender) s) /\
  (forall x proof h u s1,
     requestUnstake_external sender x proof s <>
       Revert (ERC7984UnauthorizedUseOfEncryptedAmount h u) s1).
Proof.
  split; [split|].
  - intros A. now rewrite requestUnstake_unfold, A.
  - rewrite requestUnstake_unfold.
    destruct (eng_isAllowed eng amount sender (fhe s)); [|reflexivity].
    destruct (_requestUnstake_cases s sender amount)
      as [[-> _]|[(b & e1 & _ & _ & ->)|(b & s1 & ->)]]; discriminate.
  - intros x proof h u s1. rewrite requestUnstake_external_unfold.
    destruct (eng_fromExternal eng x proof sender (fhe s)) as [[amount' e0]|];
      [|discriminate].
    destruct (_requestUnstake_cases
                (mkState eng (unstakeRequests s) e0 (balance s) (trace s)) sender amount')
      as [[-> _]|[(b & e1 & _ & _ & ->)|(b & s2 & ->)]]; discriminate.
Qed.

(** X4. A request to unstake, through either entry point, makes no value
    call and never changes the contract's ETH balance.  When it reverts, the
    registry and the trace are untouched and the error is the engine's, the
    authorization error or [InvalidUnstakeRequest].  When it succeeds, the
    handle it returns read the zero address before, is now registered for
    the caller, every other handle reads as before, and the effects added
    are the store and the [UnstakeRequested] event for that caller and
    handle. *)
Theorem request_outcomes {eng : Engine} (s : State eng) sender amount ext proof
    (x : Exec eng handle) :
  x = requestUnstake sender amount s \/ x = requestUnstake_external sender ext proof s ->
  (forall to w s1 k, x <> ExternalCall to w s1 k) /\
  (forall e s1, x = Revert e s1 ->
     balance s1 = balance s /\ unstakeRequests s1 = unstakeRequests s /\
     trace s1 = trace s /\
     (e = EngineRevert \/
      e = ERC7984UnauthorizedUseOfEncryptedAmount amount sender \/
      exists burnt, e = InvalidUnstakeRequest burnt /\
                    default 0 (unstakeRequests s !! burnt) <> 0)) /\
  (forall burnt s1, x = Ok burnt s1 ->
     balance s1 = balance s /\
     default 0 (unstakeRequests s !! burnt) = 0 /\
     unstakeRequests s1 !! burnt = Some sender /\
     (forall h, h <> burnt -> unstakeRequests s1 !! h = unstakeRequests s !! h) /\
     trace s1 = trace s ++ [SStore burnt sender; Emit (UnstakeRequested sender burnt)]).
Proof.
  assert (G : forall (s0 : State eng) a,
            unstakeRequests s0 = unstakeRequests s -> balance s0 = balance s ->
            trace s0 = trace s ->
            let x := _requestUnstake sender a s0 in
            (forall to w s1 k, x <> ExternalCall to w s1 k) /\
            (forall e s1, x = Revert e s1 ->
               balance s1 = balance s /\ unstakeRequests s1 = unstakeRequests s /\
               trace s1 = trace s /\
               (e = EngineRevert \/
                e = ERC7984UnauthorizedUseOfEncryptedAmount amount sender \/
                exists burnt, e = InvalidUnstakeRequest burnt /\
                              default 0 (unstakeRequests s !! burnt) <> 0)) /\
            (forall burnt s1, x = Ok burnt s1 ->
               balance s1 = balance s /\
               default 0 (unstakeRequests s !! burnt) = 0 /\
               unstakeRequests s1 !! burnt = Some sender /\
               (forall h, h <> burnt -> unstakeRequests s1 !! h = unstakeRequests s !! h) /\
               trace s1 = trace s ++
                 [SStore burnt sender; Emit (UnstakeRequested sender burnt)])).
  { intros s0 a Er Eb Et x0. subst x0. split; [|split].
    - intros to w s1 k.
      destruct (_requestUnstake_cases s0 sender a)
        as [[-> _]|[(b & e1 & _ & _ & ->)|(b & s2 & ->)]]; discriminate.
    - intros e s1 H.
      destruct (_requestUnstake_cases s0 sender a)
        as [[R _]|[(b & e1 & _ & N & R)|(b & s2 & R)]]; rewrite R in H;
        try discriminate H; injection H as <- <-.
      + repeat split; try assumption. now left.
      + repeat split; try assumption. right. right. exists b. rewrite <- Er. now split.
    - intros burnt s1 H.
      apply _requestUnstake_success in H as (e1 & _ & Hz & Hm & _ & Hb & Ht).
      rewrite Er in Hz, Hm. rewrite Eb in Hb. rewrite Et in Ht.
      split; [exact Hb|]. split; [exact Hz|]. rewrite Hm. split; [apply lookup_insert_eq|].
      split; [|exact Ht]. intros h N. now apply lookup_insert_ne. }
  intros [->| ->].
  - rewrite requestUnstake_unfold.
    destruct (eng_isAllowed eng amount sender (fhe s)); [now apply G|].
    split; [|split].
    + discriminate.
    + intros e s1 H. injection H as <- <-. repeat split. right. now left.
    + discriminate.
  - rewrite requestUnstake_external_unfold.
    destruct (eng_fromExternal eng ext proof sender (fhe s)) as [[a e0]|]; [now apply G|].
    split; [|split].
    + discriminate.
    + intros e s1 H. injection H as <- <-. repeat split. now left.
    + discriminate.
Qed.

Lemma request_outcomes_witness :
  requestUnstake_external 7 1000000 some_proof scenario_staked =
    Ok 1000000 scenario_requested /\
  balance scenario_requested = balance scenario_staked /\
  unstakeRequests scenario_requested !! 1000000 = Some 7.
Proof.
  assert (H : requestUnstake_external 7 1000000 some_proof scenario_staked =
              Ok 1000000 scenario_requested) by reflexivity.
  destruct (request_outcomes scenario_staked 7 0 1000000 some_proof _ (or_intror eq_refl))
    as (_ & _ & S).
  destruct (S _ _ H) as (B & _ & R & _).
  split; [exact H|]. split; [exact B | exact R].
Defined.

(** ** Sums over traces *)

Lemma staked_wei_app (t1 t2 : list Effect) :
  staked_wei (t1 ++ t2) = staked_wei t1 + staked_wei t2.
Proof.
  induction t1 as [|ef t IH]; [reflexivity|].
  destruct ef as [| | | |[]]; cbn; lia.
Qed.

Lemma released_wei_app (t1 t2 : list Effect) :
  released_wei (t1 ++ t2) = released_wei t1 + released_wei t2.
Proof.
  induction t1 as [|ef t IH]; [reflexivity|].
  destruct ef as [| | | |[]]; cbn; lia.
Qed.

Lemma called_wei_app (t1 t2 : list Effect) :
  called_wei (t1 ++ t2) = called_wei t1 + called_wei t2.
Proof.
  induction t1 as [|ef t IH]; [reflexivity|].
  destruct ef; cbn; lia.
Qed.

(** ** Outcomes of [finalizeUnstake] *)

Lemma value_call_Some {eng : Engine} (W : World) to v (s : State eng) :
  payable_now W to v s ->
  value_call W to v s = Some (set_balance (balance s - v) s).
Proof.
  intros (Hb & Ht & Ha). unfold value_call.
  apply Z.eqb_neq in Ht. rewrite Ht, Ha.
  destruct (balance s <? v) eqn:L; [apply Z.ltb_lt in L; lia | reflexivity].
Qed.

Lemma value_call_None {eng : Engine} (W : World) to v (s : State eng) :
  ~ payable_now W to v s -> value_call W to v s = None.
Proof.
  intros N. unfold value_call.
  destruct (balance s <? v) eqn:L; [reflexivity|]. apply Z.ltb_ge in L.
  destruct (to =? this W) eqn:T; [reflexivity|]. apply Z.eqb_neq in T.
  destruct (accepts W to v) eqn:A; [|reflexivity].
  exfalso. apply N. now repeat split.
Qed.

Lemma payable_now_dec {eng : Engine} (W : World) to v (s : State eng) :
  {payable_now W to v s} + {~ payable_now W to v s}.
Proof.
  unfold payable_now.
  destruct (Z_le_dec v (balance s)); [|right; tauto].
  destruct (Z.eq_dec to (this W)); [right; tauto|].
  destruct (accepts W to v); [left; tauto | right; intros (_ & _ & ?); discriminate].
Qed.

Lemma finalize_completes {eng : Engine} (W : World) (s : State eng) caller h c p to :
  unstakeRequests s !! h = Some to -> to <> 0 ->
  eng_checkSignatures eng [h] [c] p (fhe s) = true ->
  c * STAKE_SCALE <= uint256_max ->
  payable_now W to (c * STAKE_SCALE) s ->
  exists s', complete W (finalizeUnstake caller h c p s) = Success tt s'.
Proof.
  intros Hr H0 Hs Hm P.
  assert (E : default 0 (unstakeRequests s !! h) = to) by now rewrite Hr.
  eexists. apply finalize_transfer_ok; rewrite ?E; try assumption.
  now apply (value_call_Some W to _ (at_call h c p to s)).
Qed.

(** X5. [finalizeUnstake] completes successfully exactly when the handle is
    registered for a recipient, the engine accepts the proof for the handle
    and the clear value, the product [clear * 10^12] fits [uint256], and the
    value call goes through: the contract holds at least that many wei and
    the recipient, which is not the contract itself, accepts them. *)
Theorem finalize_succeeds_iff {eng : Engine} (W : World) (s : State eng) caller h c p :
  (exists s', complete W (finalizeUnstake caller h c p s) = Success tt s') <->
  exists to,
    unstakeRequests s !! h = Some to /\ to <> 0 /\
    eng_checkSignatures eng [h] [c] p (fhe s) = true /\
    c * 10 ^ 12 <= 2 ^ 256 - 1 /\
    payable_now W to (c * 10 ^ 12) s.
Proof.
  rewrite <- STAKE_SCALE_value. fold uint256_max. split.
  - intros [s' H]. apply finalize_success_inv in H as (H0 & Hs & Hm & Hv & _).
    exists (default 0 (unstakeRequests s !! h)).
    split; [now apply lookup_nonzero|]. split; [exact H0|]. split; [exact Hs|].
    split; [exact Hm|].
    destruct (payable_now_dec W (default 0 (unstakeRequests s !! h)) (c * STAKE_SCALE) s)
      as [P|N]; [exact P|].
    pose proof (value_call_None W _ _
                  (at_call h c p (default 0 (unstakeRequests s !! h)) s) N) as V.
    rewrite V in Hv. discriminate Hv.
  - intros (to & Hr & H0 & Hs & Hm & P). now apply (finalize_completes W s caller h c p to).
Qed.

(** X6. The checks of [finalizeUnstake] fail in a fixed order.  A handle that
    reads the zero address gives [InvalidUnstakeRequest] whatever the proof;
    on a registered handle a rejected proof gives the engine's revert
    whatever the amount; then an overflowing product gives Panic(0x11); and
    only then a value call that does not go through gives [TransferFailed].
    There is no other failure. *)
Theorem finalize_failure_order {eng : Engine} (W : World) (s s1 : State eng)
    caller h c p e :
  complete W (finalizeUnstake caller h c p s) = Failure e s1 ->
  let to := default 0 (unstakeRequests s !! h) in
  e = InvalidUnstakeRequest h /\ to = 0 /\ s1 = s \/
  e = EngineRevert /\ to <> 0 /\
    eng_checkSignatures eng [h] [c] p (fhe s) = false \/
  e = Panic 17 /\ to <> 0 /\
    eng_checkSignatures eng [h] [c] p (fhe s) = true /\ c * 10 ^ 12 > 2 ^ 256 - 1 \/
  e = TransferFailed /\ to <> 0 /\
    eng_checkSignatures eng [h] [c] p (fhe s) = true /\ c * 10 ^ 12 <= 2 ^ 256 - 1 /\
    ~ payable_now W to (c * 10 ^ 12) s.
Proof.
  intros H to. rewrite <- STAKE_SCALE_value. fold uint256_max.
  destruct (finalize_cases s caller h c p) as [H0|H0 Hs|H0 Hs Hm|k to' H0 Hs Hm Hn Hk].
  - injection H as <- <-. now left.
  - injection H as <- <-. right. left. now repeat split.
  - injection H as <- <-. right. right. left. apply Z.leb_gt in Hm.
    repeat split; try assumption. lia.
  - right. right. right. subst to'. fold to in H, Hn, Hk. cbn [complete] in H.
    apply Z.leb_le in Hm.
    destruct (payable_now_dec W to (c * STAKE_SCALE) s) as [P|N].
    + rewrite (value_call_Some W to _ (at_call h c p to s)) in H by exact P.
      rewrite Hk in H. discriminate H.
    + rewrite (value_call_None W to _ (at_call h c p to s)) in H by exact N.
      rewrite Hn in H. injection H as <- <-. now repeat split.
Qed.

Lemma finalize_failure_order_witness :
  complete example_world (finalizeUnstake 9 5 5 some_proof rejecting_example) =
    Failure TransferFailed (at_call 5 5 some_proof 666 rejecting_example) /\
  ~ payable_now example_world 666 (5 * 10 ^ 12) rejecting_example.
Proof.
  assert (H : complete example_world (finalizeUnstake 9 5 5 some_proof rejecting_example) =
              Failure TransferFailed (at_call 5 5 some_proof 666 rejecting_example))
    by reflexivity.
  split; [exact H|].
  destruct (finalize_failure_order example_world _ _ 9 5 5 some_proof _ H)
    as [(E & _)|[(E & _)|[(E & _)|(_ & _ & _ & _ & N)]]];
    [discriminate E | discriminate E | discriminate E | exact N].
Defined.

(** X7. A proof that the engine rejects does not consume the request.  The
    call reverts after the entry was deleted and before any value call; the
    host discards the deletion, so the handle stays registered for the same
    recipient with the balance untouched, and a later [finalizeUnstake] with
    an accepted proof, whose value call goes through, succeeds. *)
Theorem rejected_proof_keeps_request {eng : Engine} (W : World) (s : State eng)
    caller h c p to :
  unstakeRequests s !! h = Some to -> to <> 0 ->
  eng_checkSignatures eng [h] [c] p (fhe s) = false ->
  let s' := transact W caller (MFinalizeUnstake h c p) s in
  (exists s1,
     complete W (finalizeUnstake caller h c p s) = Failure EngineRevert s1 /\
     unstakeRequests s1 !! h = None /\
     called_wei (trace s1) = called_wei (trace s)) /\
  s' = s /\
  unstakeRequests s' !! h = Some to /\
  forall caller' c' p',
    eng_checkSignatures eng [h] [c'] p' (fhe s) = true ->
    c' * 10 ^ 12 <= 2 ^ 256 - 1 ->
    payable_now W to (c' * 10 ^ 12) s ->
    exists s2, complete W (finalizeUnstake caller' h c' p' s') = Success tt s2.
Proof.
  intros Hr H0 Hs s'.
  assert (E0 : default 0 (unstakeRequests s !! h) <> 0) by now rewrite Hr.
  pose proof (finalize_bad_proof s caller h c p E0 Hs) as F.
  assert (E : s' = s) by (unfold s', transact, dispatch; now rewrite F).
  split; [|split; [exact E|rewrite E; split; [exact Hr|]]].
  - eexists. rewrite F. split; [reflexivity|]. split.
    + cbn. apply lookup_delete_eq.
    + cbn. rewrite <- app_assoc, called_wei_app. cbn. lia.
  - intros caller' c' p' Hs' Hm P. rewrite <- STAKE_SCALE_value in Hm, P.
    now apply (finalize_completes W s caller' h c' p' to).
Qed.

Lemma rejected_proof_keeps_request_witness :
  unstakeRequests pending_example !! 5 = Some 7 /\
  transact example_world 9 (MFinalizeUnstake 5 6 some_proof) pending_example =
    pending_example /\
  exists s2,
    complete example_world (finalizeUnstake 9 5 5 some_proof pending_example) =
      Success tt s2.
Proof.
  assert (R : unstakeRequests pending_example !! 5 = Some 7) by reflexivity.
  destruct (rejected_proof_keeps_request example_world pending_example 9 5 6 some_proof 7 R)
    as (_ & E & _ & L); [discriminate | reflexivity |].
  split; [exact R|]. split; [exact E|].
  apply (L 9 5 some_proof); [reflexivity | vm_compute; discriminate |].
  repeat split; [vm_compute; discriminate | discriminate].
Defined.

(** ** The life of a handle *)



(** X9. The duplicate-handle guard concerns live entries only: once a handle
    has been finalized it is free again, and a request whose burn returns
    that same handle succeeds and registers it for the new requester. *)
Theorem finalized_handle_is_free_again {eng : Engine} (W : World) (s s' : State eng)
    caller h c p from amount e1 :
  complete W (finalizeUnstake caller h c p s) = Success tt s' ->
  eng_burn eng from amount (fhe s') = Some (h, e1) ->
  exists s2,
    _requestUnstake from amount s' = Ok h s2 /\
    unstakeRequests s2 !! h = Some from.
Proof.
  intros F B. rewrite _requestUnstake_unfold, B. unfold register_result.
  apply finalize_success_inv in F as (_ & _ & _ & _ & ->). cbn.
  rewrite lookup_delete_eq. cbn. eexists. split; [reflexivity|].
  cbn. apply lookup_insert_eq.
Qed.

Lemma finalized_handle_is_free_again_witness :
  complete example_world
    (finalizeUnstake 9 1000000 1000000 some_proof scenario_requested) =
    Success tt scenario_finalized /\
  exists s2,
    _requestUnstake 7 1000000 scenario_finalized = Ok 1000000 s2 /\
    unstakeRequests s2 !! 1000000 = Some 7.
Proof.
  assert (F : complete example_world
                (finalizeUnstake 9 1000000 1000000 some_proof scenario_requested) =
              Success tt scenario_finalized) by reflexivity.
  split; [exact F|].
  apply (finalized_handle_is_free_again example_world _ _ _ _ _ _ 7 1000000 {[ 7 := 0 ]} F).
  reflexivity.
Defined.

(** ** Transactions, one at a time *)

Section Steps.

Context {eng : Engine} (W : World).

(** What one transaction does to the committed state: nothing (it reverted),
    or the effect of a successful stake, request or finalization. *)
Lemma transact_cases (s : State eng) sender m :
  let s' := transact W sender m s in
  s' = s \/
  (exists v, m = MStake v /\ ~ misaligned v /\
     trace s' = trace s ++ [Emit (Staked sender v (v / STAKE_SCALE))] /\
     balance s' = balance s + v /\
     unstakeRequests s' = unstakeRequests s) \/
  (exists burnt,
     trace s' = trace s ++ [SStore burnt sender; Emit (UnstakeRequested sender burnt)] /\
     balance s' = balance s /\
     unstakeRequests s' = <[burnt := sender]> (unstakeRequests s)) \/
  (exists h c p to, m = MFinalizeUnstake h c p /\
     unstakeRequests s !! h = Some to /\
     trace s' = trace s ++ finalize_effects h c p to /\
     balance s' = balance s - c * STAKE_SCALE /\
     c * STAKE_SCALE <= balance s /\
     unstakeRequests s' = delete h (unstakeRequests s)).
Proof.
  assert (G : forall (s0 : State eng) a,
            unstakeRequests s0 = unstakeRequests s -> balance s0 = balance s ->
            trace s0 = trace s ->
            let s' := commit s (complete W (bindE (_requestUnstake sender a s0)
                                              (fun _ => ret tt))) in
            s' = s \/
            exists burnt,
              trace s' = trace s ++
                [SStore burnt sender; Emit (UnstakeRequested sender burnt)] /\
              balance s' = balance s /\
              unstakeRequests s' = <[burnt := sender]> (unstakeRequests s)).
  { intros s0 a Er Eb Et.
    destruct (_requestUnstake_cases s0 sender a)
      as [[R _]|[(b & e1 & _ & _ & R)|(b & s1 & R)]]; rewrite R; cbn; [now left..|].
    right. exists b.
    apply _requestUnstake_success in R as (e1 & _ & _ & Hm & _ & Hb & Ht).
    now rewrite Ht, Hb, Hm, Et, Eb, Er. }
  destruct m as [v|x proof|amount|h c p]; unfold transact, dispatch, bind.
  - destruct (misaligned_dec v) as [B|N].
    { left. now rewrite (stake_rejected s sender v B). }
    destruct (stake_accepted_cases s sender v N) as [(minted & e2 & -> & _)|(s1 & -> & _)];
      [|now left].
    right. left. exists v. cbn. now repeat split.
  - rewrite requestUnstake_external_unfold.
    destruct (eng_fromExternal eng x proof sender (fhe s)) as [[a e0]|]; [|now left].
    destruct (G (mkState eng (unstakeRequests s) e0 (balance s) (trace s)) a
                eq_refl eq_refl eq_refl) as [E|E]; [now left | right; right; now left].
  - rewrite requestUnstake_unfold.
    destruct (eng_isAllowed eng amount sender (fhe s)); [|now left].
    destruct (G s amount eq_refl eq_refl eq_refl) as [E|E];
      [now left | right; right; now left].
  - destruct (complete W (finalizeUnstake sender h c p s)) as [[] s1|e s1] eqn:F;
      [|now left].
    right. right. right.
    apply finalize_success_inv in F as (H0 & _ & _ & Hv & ->).
    exists h, c, p, (default 0 (unstakeRequests s !! h)). cbn.
    split; [reflexivity|]. split; [now apply lookup_nonzero|].
    split; [now rewrite <- !app_assoc|]. split; [reflexivity|]. split; [|reflexivity].
    destruct (Z_le_dec (c * STAKE_SCALE) (balance s)) as [L|L]; [exact L|].
    rewrite value_call_None in Hv; [discriminate Hv|].
    intros (L' & _). now apply L.
Qed.

End Steps.

(** ** Invariants of the reachable states *)

(** X10. The contract's ETH balance is accounted for by its events: in every
    reachable state it equals the balance at deployment, plus the wei of
    all [Staked] events, minus the wei of all [UnstakeFinalized] events; and
    the wei sent out by value calls are exactly the wei of the
    [UnstakeFinalized] events. *)
Theorem balance_accounted_by_events {eng : Engine} (W : World) (e : enc eng) (b : Z)
    (s : State eng) :
  reachable W (deployed e b) s ->
  balance s = b + staked_wei (trace s) - released_wei (trace s) /\
  called_wei (trace s) = released_wei (trace s).
Proof.
  induction 1 as [|s sender m _ [IB IC] _].
  - cbn. split; lia.
  - destruct (transact_cases W s sender m)
      as [->|[(v & _ & _ & -> & -> & _)|[(burnt & -> & -> & _)|
          (h & c & p & to & _ & _ & -> & -> & _)]]].
    + now split.
    + rewrite staked_wei_app, released_wei_app, called_wei_app. cbn. split; lia.
    + rewrite staked_wei_app, released_wei_app, called_wei_app. cbn. split; lia.
    + rewrite staked_wei_app, released_wei_app, called_wei_app. cbn. split; lia.
Qed.

Lemma balance_accounted_by_events_witness :
  balance scenario_requested =
    0 + staked_wei (trace scenario_requested) - released_wei (trace scenario_requested).
Proof.
  exact (proj1 (balance_accounted_by_events example_world _ _ _
                  scenario_requested_reachable)).
Defined.

(** X11. Every pending withdrawal has its event: in every reachable state, a
    handle registered for a recipient was announced by an [UnstakeRequested]
    event carrying that recipient and that handle, after which the handle
    was not deleted. *)
Theorem pending_entries_were_announced {eng : Engine} (W : World) (e : enc eng) (b : Z)
    (s : State eng) :
  reachable W (deployed e b) s ->
  forall h r,
    unstakeRequests s !! h = Some r ->
    exists before after,
      trace s = before ++ Emit (UnstakeRequested r h) :: after /\
      ~ In (SDelete h) after.
Proof.
  induction 1 as [|s sender m _ IH _]; intros h r L.
  - cbn in L. now rewrite lookup_empty in L.
  - destruct (transact_cases W s sender m)
      as [E|[(v & _ & _ & Et & _ & Er)|[(burnt & Et & _ & Er)|
          (h' & c & p & to & _ & _ & Et & _ & _ & Er)]]].
    + rewrite E in L |- *. now apply IH.
    + rewrite Er in L. destruct (IH h r L) as (t1 & t2 & Ht & N).
      exists t1, (t2 ++ [Emit (Staked sender v (v / STAKE_SCALE))]).
      rewrite Et, Ht, <- app_assoc. split; [reflexivity|].
      rewrite in_app_iff. intros [I|[I|[]]]; [now apply N | discriminate I].
    + rewrite Er in L. rewrite Et. destruct (Z.eq_dec burnt h) as [->|Ne].
      * rewrite lookup_insert_eq in L. injection L as <-.
        exists (trace s ++ [SStore h sender]), [].
        rewrite <- app_assoc. split; [reflexivity | intros []].
      * rewrite lookup_insert_ne in L by exact Ne.
        destruct (IH h r L) as (t1 & t2 & Ht & N).
        exists t1, (t2 ++ [SStore burnt sender; Emit (UnstakeRequested sender burnt)]).
        rewrite Ht, <- app_assoc. split; [reflexivity|].
        rewrite in_app_iff. intros [I|[I|[I|[]]]]; [now apply N | discriminate I..].
    + rewrite Er in L. rewrite Et. destruct (Z.eq_dec h' h) as [->|Ne].
      * now rewrite lookup_delete_eq in L.
      * rewrite lookup_delete_ne in L by exact Ne.
        destruct (IH h r L) as (t1 & t2 & Ht & N).
        exists t1, (t2 ++ finalize_effects h' c p to).
        rewrite Ht, <- app_assoc. split; [reflexivity|].
        rewrite in_app_iff. unfold finalize_effects.
        intros [I|[I|[I|[I|[I|[]]]]]]; [now apply N | | discriminate I..].
        injection I as ->. now apply Ne.
Qed.

Lemma pending_entries_were_announced_witness :
  unstakeRequests scenario_requested !! 1000000 = Some 7 /\
  exists before after,
    trace scenario_requested = before ++ Emit (UnstakeRequested 7 1000000) :: after /\
    ~ In (SDelete 1000000) after.
Proof.
  assert (L : unstakeRequests scenario_requested !! 1000000 = Some 7) by reflexivity.
  split; [exact L|].
  exact (pending_entries_were_announced example_world _ _ _
           scenario_requested_reachable 1000000 7 L).
Defined.

(** X12. No transaction overdraws the contract or takes ETH out except a
    finalization: with arguments in the range of their types, a transaction
    started with a nonnegative balance ends with a nonnegative balance, and
    unless it is a [finalizeUnstake] it never lowers the balance. *)
Theorem transactions_never_overdraw {eng : Engine} (W : World) (s : State eng) sender m :
  well_typed m ->
  (0 <= balance s -> 0 <= balance (transact W sender m s)) /\
  ((forall h c p, m <> MFinalizeUnstake h c p) ->
   balance s <= balance (transact W sender m s)).
Proof.
  intros T.
  destruct (transact_cases W s sender m)
    as [->|[(v & -> & _ & _ & -> & _)|[(burnt & _ & -> & _)|
        (h & c & p & to & -> & _ & _ & -> & L & _)]]].
  - split; intros; lia.
  - cbn in T. split; intros; lia.
  - split; intros; lia.
  - split; [intros; lia|]. intros N. now destruct (N h c p).
Qed.

Lemma transactions_never_overdraw_witness :
  0 <= balance (transact example_world 9
                  (MFinalizeUnstake 1000000 1000000 some_proof) scenario_requested) /\
  balance scenario_start <=
    balance (transact example_world 7 (MStake 2000000000000000000) scenario_start).
Proof.
  split.
  - apply (transactions_never_overdraw example_world scenario_requested 9
             (MFinalizeUnstake 1000000 1000000 some_proof)).
    + vm_compute. split; discriminate.
    + vm_compute. discriminate.
  - apply (transactions_never_overdraw example_world scenario_start 7
             (MStake 2000000000000000000)).
    + vm_compute. split; discriminate.
    + discriminate.
Defined.

(** ** The client's checks against the contract's *)

Lemma client_scale (data : option Z) :
  data = None \/ data = Some STAKE_SCALE -> stakeScale data = 10 ^ 12.
Proof. intros [->| ->]; reflexivity. Qed.

Lemma MAX_UINT64_value : MAX_UINT64 = 2 ^ 64 - 1.
Proof. reflexivity. Qed.

Lemma aligned_nonneg (w : Z) :
  0 <= w -> ~ misaligned w ->
  w <> 0 /\ Z.rem w (10 ^ 12) = 0 /\ Z.quot w (10 ^ 12) = w / 10 ^ 12 /\
  1 <= w / 10 ^ 12 <= 2 ^ 64 - 1 /\ (w / 10 ^ 12) * 10 ^ 12 = w.
Proof.
  intros P G. unfold misaligned in G.
  assert (M : w mod 10 ^ 12 = 0) by (destruct (Z.eq_dec (w mod 10 ^ 12) 0); tauto).
  assert (N : w <> 0) by tauto.
  pose proof (Z.div_mod w (10 ^ 12)).
  rewrite Z.rem_mod_nonneg, Z.quot_div_nonneg by lia.
  repeat split; lia.
Qed.

(** X13. [handleRequestUnstake] checks an amount exactly as the contract's
    [stake] does.  With the scale read from the contract, or the fallback,
    a nonnegative parsed amount goes on to encryption exactly when [stake]
    would accept it as [msg.value]; the units encrypted are then the amount
    divided by 10^12, between 1 and 2^64 - 1, and convert back to the amount
    without remainder.  Any other amount ends in an error status. *)
Theorem client_request_checks_match_contract (parseEther : string -> option Z)
    (amount : string) (w : Z) (data : option Z) :
  data = None \/ data = Some STAKE_SCALE ->
  parseWei parseEther amount = Some w -> 0 <= w ->
  (~ misaligned w ->
   handleRequestUnstake parseEther true true amount (stakeScale data) =
     Proceed (w / 10 ^ 12) /\
   1 <= w / 10 ^ 12 <= 2 ^ 64 - 1 /\ (w / 10 ^ 12) * 10 ^ 12 = w) /\
  (misaligned w ->
   exists st,
     handleRequestUnstake parseEther true true amount (stakeScale data) = Halt st /\
     tone st = error).
Proof.
  intros D Hp P. rewrite (client_scale data D).
  unfold handleRequestUnstake. cbn [negb]. rewrite Hp. unfold bigint_rem, bigint_div.
  change (10 ^ 12 =? 0) with false. cbv iota.
  split.
  - intros G. destruct (aligned_nonneg w P G) as (N & R & Q & B & E).
    apply Z.eqb_neq in N. rewrite N, R, Q. cbn [Z.eqb negb].
    rewrite MAX_UINT64_value.
    destruct (w / 10 ^ 12 >? 2 ^ 64 - 1) eqn:C; [apply Z.gtb_gt in C; lia|].
    now repeat split.
  - intros B. destruct (w =? 0) eqn:N; [now eexists|].
    apply Z.eqb_neq in N.
    destruct (Z.rem w (10 ^ 12) =? 0) eqn:R; cbn [negb]; [|now eexists].
    apply Z.eqb_eq in R. rewrite Z.rem_mod_nonneg in R by lia.
    rewrite Z.quot_div_nonneg by lia. rewrite MAX_UINT64_value.
    destruct (w / 10 ^ 12 >? 2 ^ 64 - 1) eqn:C; [now eexists|].
    exfalso. rewrite Z.gtb_ltb in C. apply Z.ltb_ge in C. unfold misaligned in B. lia.
Qed.

Lemma client_request_checks_match_contract_witness :
  parseWei example_parseEther "2" = Some 2000000000000000000 /\
  handleRequestUnstake example_parseEther true true "2" (stakeScale None) =
    Proceed (2000000000000000000 / 10 ^ 12).
Proof.
  assert (H : parseWei example_parseEther "2" = Some 2000000000000000000) by reflexivity.
  split; [exact H|].
  destruct (client_request_checks_match_contract example_parseEther "2" _ None
              (or_introl eq_refl) H) as [A _]; [lia|].
  apply A. unfold misaligned. vm_compute.
  intros [E|[E|E]]; [discriminate E | now apply E | discriminate E].
Defined.

(** X14. [handleStake] makes no range check.  With the scale read from the
    contract, or the fallback, it sends a nonnegative parsed amount exactly
    when the amount is a nonzero multiple of 10^12.  So it stops no amount
    that [stake] would accept, but it sends amounts above (2^64 - 1) * 10^12,
    on which [stake] reverts with [InvalidStakeAmount]. *)
Theorem client_stake_check_omits_range (parseEther : string -> option Z)
    (amount : string) (w : Z) (data : option Z) :
  data = None \/ data = Some STAKE_SCALE ->
  parseWei parseEther amount = Some w -> 0 <= w ->
  let sent := handleStake parseEther true true amount (stakeScale data) = Proceed w in
  (sent <-> w <> 0 /\ w mod 10 ^ 12 = 0) /\
  (~ misaligned w -> sent) /\
  (sent -> w / 10 ^ 12 > 2 ^ 64 - 1 ->
   forall (eng : Engine) (s : State eng) sender,
     stake sender w s = Revert InvalidStakeAmount (set_balance (balance s + w) s)).
Proof.
  intros D Hp P sent.
  assert (I : sent <-> w <> 0 /\ w mod 10 ^ 12 = 0).
  { unfold sent. rewrite (client_scale data D).
    unfold handleStake. cbn [negb]. rewrite Hp. unfold bigint_rem.
    change (10 ^ 12 =? 0) with false. cbv iota.
    rewrite Z.rem_mod_nonneg by lia.
    destruct (w =? 0) eqn:N.
    { apply Z.eqb_eq in N. split; [discriminate | tauto]. }
    apply Z.eqb_neq in N.
    destruct (w mod 10 ^ 12 =? 0) eqn:R; cbn [negb].
    - apply Z.eqb_eq in R. tauto.
    - apply Z.eqb_neq in R. split; [discriminate | tauto]. }
  split; [exact I|]. split.
  - intros G. apply I. unfold misaligned in G.
    destruct (Z.eq_dec (w mod 10 ^ 12) 0); tauto.
  - intros _ R eng s sender. apply stake_rejected. unfold misaligned. tauto.
Qed.

Lemma client_stake_check_omits_range_witness :
  handleStake example_parseEther true true "20000000000000" (stakeScale None) =
    Proceed 20000000000000000000000000000000 /\
  stake 7 20000000000000000000000000000000 scenario_start =
    Revert InvalidStakeAmount
      (set_balance (balance scenario_start + 20000000000000000000000000000000)
         scenario_start).
Proof.
  assert (H : parseWei example_parseEther "20000000000000" =
              Some 20000000000000000000000000000000) by reflexivity.
  destruct (client_stake_check_omits_range example_parseEther "20000000000000" _ None
              (or_introl eq_refl) H) as (I & _ & R); [lia|].
  assert (S : handleStake example_parseEther true true "20000000000000" (stakeScale None) =
              Proceed 20000000000000000000000000000000) by reflexivity.
  split; [exact S|]. apply (R S). reflexivity.
Defined.

(** X15. Neither handler tests the sign of the amount: when [parseWei] yields
    a negative multiple of 10^12, [handleStake] goes on to send it as the
    value of the transaction, and [handleRequestUnstake] goes on to encrypt
    a negative number of units. *)
Theorem client_checks_have_no_sign_test (parseEther : string -> option Z)
    (amount : string) (w : Z) (data : option Z) :
  data = None \/ data = Some STAKE_SCALE ->
  parseWei parseEther amount = Some w -> w < 0 -> Z.rem w (10 ^ 12) = 0 ->
  handleStake parseEther true true amount (stakeScale data) = Proceed w /\
  handleRequestUnstake parseEther true true amount (stakeScale data) =
    Proceed (Z.quot w (10 ^ 12)) /\
  Z.quot w (10 ^ 12) < 0.
Proof.
  intros D Hp N R. rewrite (client_scale data D).
  assert (Q : Z.quot w (10 ^ 12) < 0).
  { pose proof (Z.quot_rem' w (10 ^ 12)). rewrite R in *. lia. }
  assert (Z0 : (w =? 0) = false) by (apply Z.eqb_neq; lia).
  unfold handleStake, handleRequestUnstake. cbn [negb]. rewrite Hp.
  unfold bigint_rem, bigint_div. change (10 ^ 12 =? 0) with false. cbv iota.
  rewrite Z0, R. cbn [Z.eqb negb]. split; [reflexivity|]. split; [|exact Q].
  rewrite MAX_UINT64_value.
  destruct (Z.quot w (10 ^ 12) >? 2 ^ 64 - 1) eqn:C; [apply Z.gtb_gt in C; lia|].
  reflexivity.
Qed.

Lemma client_checks_have_no_sign_test_witness :
  handleStake example_parseEther true true "-1" (stakeScale None) =
    Proceed (-1000000000000000000) /\
  handleRequestUnstake example_parseEther true true "-1" (stakeScale None) =
    Proceed (Z.quot (-1000000000000000000) (10 ^ 12)).
Proof.
  destruct (client_checks_have_no_sign_test example_parseEther "-1"
              (-1000000000000000000) None (or_introl eq_refl))
    as (A & B & _); [reflexivity | lia | reflexivity |].
  split; [exact A | exact B].
Defined.

(** X16. [handleFinalizeUnstake] sends the transaction exactly when a pending
    request carries a nonzero clear value and a non-empty proof and the
    wallet is connected.  A pending request whose clear value is zero is
    treated as having no proof, although the contract finalizes a zero
    withdrawal like any other: on a registered handle, with an accepted
    proof and a recipient that accepts the call, [finalizeUnstake] with
    clear value 0 succeeds and removes the entry. *)
Theorem client_refuses_zero_withdrawal (pu : PendingUnstake) (activeAddress signer : bool) :
  (forall sent,
     handleFinalizeUnstake (Some pu) activeAddress signer = Proceed sent <->
     exists c d,
       clearValue pu = Some c /\ decryptionProof pu = Some d /\
       c <> 0 /\ d <> ""%string /\ activeAddress = true /\ signer = true /\
       sent = (unstakeHandle pu, c, d)) /\
  (clearValue pu = Some 0 ->
   handleFinalizeUnstake (Some pu) activeAddress signer =
     Halt {| tone := error; message := "No pending unstake proof available." |}) /\
  (forall (eng : Engine) (W : World) (s : State eng) caller h p to,
     unstakeRequests s !! h = Some to -> to <> 0 ->
     eng_checkSignatures eng [h] [0] p (fhe s) = true ->
     0 <= balance s -> to <> this W -> accepts W to 0 = true ->
     exists s',
       complete W (finalizeUnstake caller h 0 p s) = Success tt s' /\
       unstakeRequests s' !! h = None /\ balance s' = balance s).
Proof.
  split; [|split].
  - intros sent. unfold handleFinalizeUnstake.
    destruct (clearValue pu) as [c|] eqn:C.
    2:{ split; [discriminate|]. intros (c & d & E & _). discriminate E. }
    destruct (decryptionProof pu) as [d|] eqn:D.
    2:{ split; [discriminate|]. intros (c' & d & _ & E & _). discriminate E. }
    destruct (c =? 0) eqn:Z0; cbn [orb].
    { apply Z.eqb_eq in Z0. split; [discriminate|].
      intros (c' & d' & [= <-] & _ & N & _). contradiction. }
    apply Z.eqb_neq in Z0. case_bool_decide as E; cbn [orb].
    { split; [discriminate|]. intros (c' & d' & _ & [= <-] & _ & N & _). contradiction. }
    destruct activeAddress, signer; cbn [negb orb].
    + split.
      * intros [= <-]. now exists c, d.
      * intros (c' & d' & [= <-] & [= <-] & _ & _ & _ & _ & ->). reflexivity.
    + split; [discriminate|]. intros (c' & d' & _ & _ & _ & _ & _ & F & _). discriminate F.
    + split; [discriminate|]. intros (c' & d' & _ & _ & _ & _ & F & _). discriminate F.
    + split; [discriminate|]. intros (c' & d' & _ & _ & _ & _ & F & _). discriminate F.
  - intros C. unfold handleFinalizeUnstake. rewrite C.
    now destruct (decryptionProof pu).
  - intros eng W s caller h p to Hr H0 Hs Hb Ht Ha.
    destruct (finalize_completes W s caller h 0 p to Hr H0 Hs) as [s' F].
    + vm_compute. discriminate.
    + now repeat split.
    + exists s'. split; [exact F|].
      apply finalize_success_inv in F as (_ & _ & _ & _ & ->). cbn.
      split; [apply lookup_delete_eq | lia].
Qed.

Lemma client_refuses_zero_withdrawal_witness :
  handleFinalizeUnstake
    (Some {| unstakeHandle := "0x00"; clearValue := Some 0;
             decryptionProof := Some "0x01"%string |}) true true =
    Halt {| tone := error; message := "No pending unstake proof available." |} /\
  exists s',
    complete example_world (finalizeUnstake 9 0 0 some_proof zero_pending_example) =
      Success tt s' /\
    unstakeRequests s' !! 0 = None.
Proof.
  destruct (client_refuses_zero_withdrawal
              {| unstakeHandle := "0x00"; clearValue := Some 0;
                 decryptionProof := Some "0x01"%string |} true true) as (_ & H & F).
  split; [now apply H|].
  destruct (F clear_engine example_world zero_pending_example 9 0 some_proof 7)
    as (s' & A & B & _);
    [reflexivity | discriminate | reflexivity | vm_compute; discriminate
    | discriminate | reflexivity |].
  now exists s'.
Defined.

(** ** Fund release *)

Section CallBack.

Context {eng : Engine} (W : World).


End CallBack.



